(** * learn-testing: the demo HTTP server and the Gauge form steps

    A shallow embedding of [server/main.ts] (the [Router] class, the header and
    form parsers, the registered route handlers) and of
    [specs/steps/form.ts] ([FormSubmissionTest.navigateToUrl]), followed by the
    properties of the specification that concern them.

    Conventions.
    - A JavaScript string is a [string]; its characters are read as the bytes
      of its UTF-8 encoding, which is what the server receives on the wire.
    - A plain JavaScript object is the list of its own enumerable properties in
      creation order ([JsObject.t]).
    - A function that may throw returns a [Completion].
    - The calls a handler makes on its [http.ServerResponse] are returned as
      the list of those calls, in program order.
    - What Node.js itself provides and the repository only calls ([URL],
      [JSON.parse], [fs], [Date], [process]) is gathered in a [Platform]
      record; the server is a function of it.  [querystring.parse] is
      written out (module [querystring]), its percent-decoder apart, which
      is a field of the platform too. *)

From Stdlib Require Import String Ascii List Bool Arith Lia Floats.
Import ListNotations.

Local Open Scope string_scope.
Local Open Scope list_scope.

(* ================================================================= *)
(** ** Strings: the [String.prototype] methods used by the sources *)

Module JsString.

(** [s.startsWith(p)] *)
Definition startsWith (s p : string) : bool := String.prefix p s.

(** [s.includes(needle)]: [needle] occurs in [s] at some offset. *)
Fixpoint includes (s needle : string) : bool :=
  if String.prefix needle s then true
  else match s with
       | EmptyString => false
       | String _ s' => includes s' needle
       end.

(** [s.slice(n)] for a non-negative [n]. *)
Fixpoint slice (s : string) (n : nat) {struct n} : string :=
  match n, s with
  | O, _ => s
  | S _, EmptyString => EmptyString
  | S n', String _ s' => slice s' n'
  end.

(** [s.charAt(n)]: a string of one character, or the empty string. *)
Fixpoint charAt (s : string) (n : nat) : string :=
  match s, n with
  | EmptyString, _ => EmptyString
  | String c _, O => String c EmptyString
  | String _ s', S n' => charAt s' n'
  end.

(** [s.replace(pat, r)] with a string pattern: the first occurrence of [pat]
    is replaced.  The replacement is taken literally, which is what
    JavaScript does when it holds no dollar sign (the sources only pass the
    empty string). *)
Fixpoint replace (s pat r : string) : string :=
  if String.prefix pat s then r ++ slice s (String.length pat)
  else match s with
       | EmptyString => EmptyString
       | String c s' => String c (replace s' pat r)
       end.

Definition is_lower_letter (c : ascii) : bool :=
  ((97 <=? nat_of_ascii c) && (nat_of_ascii c <=? 122))%nat.

Definition is_upper_letter (c : ascii) : bool :=
  ((65 <=? nat_of_ascii c) && (nat_of_ascii c <=? 90))%nat.

Definition upper_ascii (c : ascii) : ascii :=
  if is_lower_letter c then ascii_of_nat (nat_of_ascii c - 32) else c.

Definition lower_ascii (c : ascii) : ascii :=
  if is_upper_letter c then ascii_of_nat (nat_of_ascii c + 32) else c.

(** [s.toUpperCase()] and [s.toLowerCase()] on the ASCII range, the range
    of HTTP header names; other bytes are left as they are. *)
Fixpoint toUpperCase (s : string) : string :=
  match s with
  | EmptyString => EmptyString
  | String c s' => String (upper_ascii c) (toUpperCase s')
  end.

Fixpoint toLowerCase (s : string) : string :=
  match s with
  | EmptyString => EmptyString
  | String c s' => String (lower_ascii c) (toLowerCase s')
  end.

(** [l.join(sep)] *)
Definition join (sep : string) (l : list string) : string := String.concat sep l.

End JsString.

(* ================================================================= *)
(** ** Plain objects *)

Module JsObject.
Section WithValues.
Context {V : Type}.

(** The own enumerable string-keyed properties, in creation order. *)
Definition t := list (string * V).

Definition empty : t := [].

(** [o[k]] restricted to own properties. *)
Fixpoint get (o : t) (k : string) : option V :=
  match o with
  | [] => None
  | (k', v) :: o' => if (k' =? k)%string then Some v else get o' k
  end.

(** [CreateDataProperty(o, k, v)]: an existing own property keeps its
    place and takes the new value; a new one is added last. *)
Fixpoint define (o : t) (k : string) (v : V) : t :=
  match o with
  | [] => [(k, v)]
  | (k', v') :: o' =>
      if (k' =? k)%string then (k', v) :: o' else (k', v') :: define o' k v
  end.

(** [o[k] = v] on an object that inherits from [Object.prototype], for a
    value [v] that is itself an object (an array, here).  The key
    [__proto__] is not stored: the assignment runs the inherited setter,
    which replaces the prototype of [o] and leaves its own properties as
    they were. *)
Definition assign (o : t) (k : string) (v : V) : t :=
  if (k =? "__proto__")%string then o else define o k v.

Definition keys (o : t) : list string := map fst o.

(** [Object.entries(o)].  JavaScript lists the keys that are array indices
    first; the loops over entries below write each key once, so what their
    results hold does not depend on it. *)
Definition entries (o : t) : list (string * V) := o.

(** [Object.fromEntries(es)]: one [CreateDataProperty] per entry, in
    order. *)
Definition fromEntries (es : list (string * V)) : t :=
  fold_left (fun o e => define o (fst e) (snd e)) es empty.

End WithValues.
Arguments t : clear implicits.
End JsObject.

(* ================================================================= *)
(** ** Completions: normal return or a thrown error *)

Inductive JsError : Type :=
| Error (message : string)
| TypeError (message : string)
| SyntaxError (message : string)
| SystemError (code : string).

Inductive Completion (A : Type) : Type :=
| Normal (a : A)
| Throw (e : JsError).

Arguments Normal {A} a.
Arguments Throw {A} e.

Definition bind {A B : Type} (c : Completion A) (k : A -> Completion B) : Completion B :=
  match c with
  | Normal a => k a
  | Throw e => Throw e
  end.

Notation "x <- c ;; k" := (bind c (fun x => k))
  (at level 61, c at next level, right associativity).

(** [try { c } catch (e) { }] around an assignment to a variable whose value
    was [dflt]. *)
Definition try_or {A : Type} (c : Completion A) (dflt : A) : A :=
  match c with
  | Normal a => a
  | Throw _ => dflt
  end.

(* ================================================================= *)
(** ** Values, requests, responses and the platform *)

(** A value of type [string | string[]], the value type of Node's
    [IncomingHttpHeaders] and [ParsedUrlQuery]. *)
Inductive StrOrArr : Type :=
| Str (s : string)
| Arr (l : list string).

(** [NodeJS.Dict<string | string[]>]: a property may hold [undefined]. *)
Definition Dict := JsObject.t (option StrOrArr).

(** [d[k]], with [undefined] as [None]. *)
Definition dict_get (d : Dict) (k : string) : option StrOrArr :=
  match JsObject.get d k with
  | Some (Some v) => Some v
  | _ => None
  end.

(** What [JSON.parse] returns and [JSON.stringify] takes. *)
#[warnings="-register-all"]
Inductive JsValue : Type :=
| JNull
| JBool (b : bool)
| JNumber (f : float)
| JString (s : string)
| JArray (l : list JsValue)
| JObject (o : list (string * JsValue)).

(** The part of a WHATWG [URL] object the server reads. *)
Record URL : Type := mkURL {
  href : string;
  pathname : string;
  searchParams : list (string * string)   (* iteration order *)
}.

(** [http.IncomingMessage] *)
Record IncomingMessage : Type := mkReq {
  req_url : option string;
  req_method : option string;
  req_headers : Dict;
  req_socket_remoteAddress : option string;
  req_chunks : list string   (* what each [data] event yields, as text *)
}.

(** What is handed to [res.end]: a text (or the bytes of a file), or the
    text [JSON.stringify(value, null, space)] of a value, kept as the value
    it serialises. *)
Inductive Payload : Type :=
| Text (s : string)
| JSON_stringify (value : JsValue) (space : nat).

(** The calls made on the [http.ServerResponse]. *)
Inductive ResCall : Type :=
| setHeader (name value : string)
| writeHead (statusCode : nat) (headers : list (string * string))
| end_ (data : Payload).

(** The response a client receives once [end] is called: the status and
    headers of [writeHead] (200 without one), over the headers set before;
    header names are compared without regard to case. *)
Record Sent : Type := mkSent {
  statusCode : nat;
  headers : list (string * string);
  body : Payload
}.

Fixpoint set_header (hs : list (string * string)) (name value : string)
  : list (string * string) :=
  match hs with
  | [] => [(name, value)]
  | (n, v) :: hs' =>
      if (JsString.toLowerCase n =? JsString.toLowerCase name)%string
      then (name, value) :: hs'
      else (n, v) :: set_header hs' name value
  end.

Fixpoint sent_from (status : nat) (hs : list (string * string)) (calls : list ResCall)
  : option Sent :=
  match calls with
  | [] => None
  | setHeader name value :: calls' => sent_from status (set_header hs name value) calls'
  | writeHead status' hs' :: calls' =>
      sent_from status' (fold_left (fun hs kv => set_header hs (fst kv) (snd kv)) hs' hs) calls'
  | end_ data :: _ => Some (mkSent status hs data)
  end.

Definition sent (calls : list ResCall) : option Sent := sent_from 200 [] calls.

(** What Node.js provides. *)
Record Platform : Type := mkPlatform {
  (** [new URL(input, base)]; throws a [TypeError] on an invalid URL *)
  URL_new : string -> string -> Completion URL;
  (** [querystring.unescape(str)]: percent-decoding, never throws *)
  querystring_unescape : string -> string;
  (** [JSON.parse(text)]; throws a [SyntaxError] *)
  JSON_parse : string -> Completion JsValue;
  (** [fs.readFile(path, callback)]: the error or the data handed to the callback *)
  fs_readFile : string -> Completion string;
  (** [new Date().toISOString()] *)
  Date_now_toISOString : string;
  (** [process.uptime()] *)
  process_uptime : float;
  (** [process.env[name]] *)
  process_env : string -> option string
}.

(** [x || dflt] for a string or [undefined]. *)
Definition or_else (x : option string) (dflt : string) : string :=
  match x with
  | Some EmptyString | None => dflt
  | Some s => s
  end.

(** A template literal's rendering of a [string | string[] | undefined]. *)
Definition template (x : option StrOrArr) : string :=
  match x with
  | None => "undefined"
  | Some (Str s) => s
  | Some (Arr l) => JsString.join "," l
  end.

(* ================================================================= *)
(** ** [node:querystring]

    [querystring.parse(qs)] with its default separators [&] and [=], its
    default decoder and its default limit of 1000 keys. *)

Module querystring.

Definition maxKeys : nat := 1000.

(** [s] cut at every [sep]; one more piece than there are separators. *)
Fixpoint split (sep : ascii) (s : string) : list string :=
  match s with
  | EmptyString => [EmptyString]
  | String c s' =>
      if Ascii.eqb c sep then EmptyString :: split sep s'
      else match split sep s' with
           | [] => [String c EmptyString]
           | piece :: pieces => String c piece :: pieces
           end
  end.

(** [s] cut at its first [eq], if any. *)
Fixpoint cut (eq : ascii) (s : string) : string * option string :=
  match s with
  | EmptyString => (EmptyString, None)
  | String c s' =>
      if Ascii.eqb c eq then (EmptyString, Some s')
      else let (k, v) := cut eq s' in (String c k, v)
  end.

Definition is_hex (c : ascii) : bool :=
  let n := nat_of_ascii c in
  (((48 <=? n) && (n <=? 57)) || ((65 <=? n) && (n <=? 70))
   || ((97 <=? n) && (n <=? 102)))%nat.

(** The parser decodes a key or a value only when it has seen a percent
    sign followed by two hexadecimal digits in it. *)
Definition escape_at_head (s : string) : bool :=
  match s with
  | String c (String a (String b _)) => Ascii.eqb c "%" && is_hex a && is_hex b
  | _ => false
  end.

Fixpoint has_escape (s : string) : bool :=
  escape_at_head s
  || match s with
     | EmptyString => false
     | String _ s' => has_escape s'
     end.

(** A plus sign stands for a space. *)
Fixpoint plus_to_space (s : string) : string :=
  match s with
  | EmptyString => EmptyString
  | String c s' => String (if Ascii.eqb c "+" then " "%char else c) (plus_to_space s')
  end.

Section WithDecoder.
Variable unescape : string -> string.

Definition decode (raw : string) : string :=
  if has_escape raw then unescape (plus_to_space raw) else plus_to_space raw.

(** The key and value of one piece between separators; an empty piece
    stands for nothing. *)
Definition pair_of (piece : string) : list (string * string) :=
  match piece with
  | EmptyString => []
  | _ => let (k, v) := cut "=" piece in
         [(decode k, decode (match v with Some v => v | None => EmptyString end))]
  end.

(** The pairs of the pieces read before the key limit stops the parser:
    every piece, empty or not, counts against the limit. *)
Definition pairs (qs : string) : list (string * string) :=
  flat_map pair_of (firstn maxKeys (split "&" qs)).

(** [addKeyValue(obj, key, value)]: the first value of a key is stored as
    a string, the second turns it into an array, later ones are pushed. *)
Definition addKeyValue (obj : Dict) (key value : string) : Dict :=
  match dict_get obj key with
  | None => JsObject.define obj key (Some (Str value))
  | Some (Arr l) => JsObject.define obj key (Some (Arr (l ++ [value])))
  | Some (Str cur) => JsObject.define obj key (Some (Arr [cur; value]))
  end.

(** The result object has no prototype: every key is an own property. *)
Definition parse (qs : string) : Dict :=
  fold_left (fun obj kv => addKeyValue obj (fst kv) (snd kv)) (pairs qs) JsObject.empty.

End WithDecoder.
End querystring.

(** [path.join(...segments)] for segments that need no normalisation. *)
Definition path_join (segments : list string) : string := JsString.join "/" segments.

(* ================================================================= *)
(** ** [server/main.ts] *)

Definition Handler : Type :=
  IncomingMessage -> option string -> Completion (list ResCall).

(** An entry of [Router.routes]. *)
Record Route : Type := mkRoute {
  method : string;
  path : string;
  handler : Handler
}.

(** The record the [/post] handler serialises. *)
Module Mirror.
Record Response : Type := mkResponse {
  args : JsObject.t string;
  headers : JsObject.t (list string);
  method : option string;
  origin : string;
  url : string;
  data : option string;
  files : JsObject.t JsValue;
  form : JsObject.t (list string);
  json : JsValue
}.

Definition field (name : string) (v : option JsValue) : list (string * JsValue) :=
  match v with
  | Some v => [(name, v)]
  | None => []          (* [JSON.stringify] leaves out [undefined] *)
  end.

Definition strings (l : list string) : JsValue := JArray (map JString l).

(** The object literal of the handler as a value. *)
Definition to_js (r : Response) : JsValue :=
  JObject
    (field "args" (Some (JObject (map (fun kv => (fst kv, JString (snd kv))) (args r))))
     ++ field "headers" (Some (JObject (map (fun kv => (fst kv, strings (snd kv))) (headers r))))
     ++ field "method" (option_map JString (method r))
     ++ field "origin" (Some (JString (origin r)))
     ++ field "url" (Some (JString (url r)))
     ++ field "data" (option_map JString (data r))
     ++ field "files" (Some (JObject (files r)))
     ++ field "form" (Some (JObject (map (fun kv => (fst kv, strings (snd kv))) (form r))))
     ++ field "json" (Some (json r))).
End Mirror.

(** [Array.prototype.push] *)
Definition push {A : Type} (l : list A) (x : A) : list A := l ++ [x].

(** [Array.isArray(value) ? value : [value]] *)
Definition as_array (value : StrOrArr) : list string :=
  match value with
  | Arr l => l
  | Str s => [s]
  end.

(** [contentType.includes(needle)]: a substring test on a string; on an
    array, which the type of the header excludes, a membership test. *)
Definition ct_includes (contentType : StrOrArr) (needle : string) : bool :=
  match contentType with
  | Str s => JsString.includes s needle
  | Arr l => existsb (String.eqb needle) l
  end.

(** [let body = ""] and then [body += chunk.toString()] for every chunk:
    [req_chunks] holds the text [chunk.toString()] of each chunk received
    before [end], in order.  ([Stream] below has the chunks as they arrive
    and the decoding apart.) *)
Definition buffered_body (req : IncomingMessage) : string :=
  fold_left (fun body chunk => (body ++ chunk)%string) (req_chunks req) "".

Section Server.
Variable P : Platform.

(** *** class Router *)

Definition Router_get (routes : list Route) (path : string) (handler : Handler) : list Route :=
  push routes (mkRoute "GET" path handler).

Definition Router_post (routes : list Route) (path : string) (handler : Handler) : list Route :=
  push routes (mkRoute "POST" path handler).

(** [r.method === method && r.path === pathname] *)
Definition route_matches (m : option string) (pathname : string) (r : Route) : bool :=
  match m with
  | Some m => (r.(method) =? m)%string
  | None => false      (* [undefined] equals no string *)
  end && (r.(path) =? pathname)%string.

(** [new URL(req.url || "", `http://${req.headers.host}`)] *)
Definition request_URL (req : IncomingMessage) : Completion URL :=
  URL_new P (or_else (req_url req) "")
            ("http://" ++ template (dict_get (req_headers req) "host"))%string.

(** [handlePost]: the chunks are appended to [body]; on [end] the handler
    is called with it.  This is the run of a request whose body ends;
    [Stream.handle] below has the body that has not ended as well. *)
Definition Router_handlePost (req : IncomingMessage) (handler : Handler)
  : Completion (list ResCall) :=
  let body := buffered_body req in
  handler req (Some body).

Definition Router_handle (routes : list Route) (req : IncomingMessage)
  : Completion (list ResCall) :=
  parsedUrl <- request_URL req ;;
  let pathname := pathname parsedUrl in
  let method := req_method req in
  match find (route_matches method pathname) routes with
  | Some route =>
      match method with
      | Some "POST" => Router_handlePost req route.(handler)
      | _ => route.(handler) req None
      end
  | None =>
      Normal [writeHead 404 [("Content-Type", "text/plain")]; end_ (Text "Not Found")]
  end.

(** *** parseHeaders and parseForm *)

Definition parseHeaders (headers : Dict) : JsObject.t (list string) :=
  fold_left
    (fun result kv =>
       let key := fst kv in
       match snd kv with
       | Some value =>
           let capitalizedKey :=
             (JsString.toUpperCase (JsString.charAt key 0) ++ JsString.slice key 1)%string in
           JsObject.assign result capitalizedKey (as_array value)
       | None => result
       end)
    (JsObject.entries headers) JsObject.empty.

Definition parseForm (body : string) : JsObject.t (list string) :=
  let parsed := querystring.parse (querystring_unescape P) body in
  fold_left
    (fun result kv =>
       match snd kv with
       | Some value => JsObject.assign result (fst kv) (as_array value)
       | None => result
       end)
    (JsObject.entries parsed) JsObject.empty.

(** *** The routes *)

Definition forms_post_handler : Handler := fun req _ =>
  let filePath := path_join ["server"; "public"; "form.html"] in
  Normal
    (setHeader "Content-Type" "text/html"
     :: match fs_readFile P filePath with
        | Throw _ =>
            [writeHead 404 [("Content-Type", "text/plain")]; end_ (Text "File not found")]
        | Normal data =>
            [writeHead 200 [("Content-Type", "text/html")]; end_ (Text data)]
        end).

(** [req.headers["content-type"] || ""] *)
Definition contentType_of (req : IncomingMessage) : StrOrArr :=
  match dict_get (req_headers req) "content-type" with
  | None | Some (Str EmptyString) => Str ""
  | Some v => v
  end.

(** The [json] and [form] variables after the content-type dispatch.  A
    handler called without a body holds [undefined] in [body]:
    [JSON.parse] throws on it and [querystring.parse] returns an empty
    object for it. *)
Definition json_and_form (contentType : StrOrArr) (body : option string)
  : JsValue * JsObject.t (list string) :=
  if ct_includes contentType "application/json" then
    (try_or (match body with
             | Some body => JSON_parse P body
             | None => Throw (SyntaxError "undefined is not valid JSON")
             end) JNull,
     JsObject.empty)
  else if ct_includes contentType "application/x-www-form-urlencoded" then
    (JNull, match body with
            | Some body => parseForm body
            | None => JsObject.empty
            end)
  else (JNull, JsObject.empty).

(** The [response] object of the [/post] handler. *)
Definition mirror (parsedUrl : URL) (req : IncomingMessage) (body : option string)
  : Mirror.Response :=
  let contentType := contentType_of req in
  let jf := json_and_form contentType body in
  {| Mirror.args := JsObject.fromEntries (searchParams parsedUrl);
     Mirror.headers := parseHeaders (req_headers req);
     Mirror.method := req_method req;
     Mirror.origin := or_else (req_socket_remoteAddress req) "unknown";
     Mirror.url := href parsedUrl;
     Mirror.data := body;
     Mirror.files := JsObject.empty;
     Mirror.form := snd jf;
     Mirror.json := fst jf |}.

Definition post_handler : Handler := fun req body =>
  parsedUrl <- request_URL req ;;
  let response := mirror parsedUrl req body in
  Normal [writeHead 200 [("Content-Type", "application/json")];
          end_ (JSON_stringify (Mirror.to_js response) 2)].

Definition health_handler : Handler := fun req _ =>
  let health :=
    JObject [("status", JString "healthy");
             ("timestamp", JString (Date_now_toISOString P));
             ("uptime", JNumber (process_uptime P));
             ("environment", JString (or_else (process_env P "NODE_ENV") "development"))] in
  Normal [writeHead 200 [("Content-Type", "application/json")];
          end_ (JSON_stringify health 2)].

Definition root_handler : Handler := fun req _ =>
  Normal [writeHead 200 [("Content-Type", "text/html")]; end_ (Text "Hello World!")].

(** [router.routes] once the module is loaded. *)
Definition router_routes : list Route :=
  let routes := Router_get [] "/forms/post" forms_post_handler in
  let routes := Router_post routes "/post" post_handler in
  let routes := Router_get routes "/health" health_handler in
  Router_get routes "/" root_handler.

(** The request listener of [createServer]. *)
Definition server (req : IncomingMessage) : Completion (list ResCall) :=
  Router_handle router_routes req.

End Server.

(* ================================================================= *)
(** ** [specs/steps/form.ts] *)

Module FormSubmissionTest.

(** The Playwright handles are opaque. *)
Inductive Browser : Type := a_browser.
Inductive BrowserContext : Type := a_context.
Inductive Page : Type := a_page.

(** The private fields of the class. *)
Record t : Type := mk {
  browser : option Browser;
  context : option BrowserContext;
  page : option Page
}.

(** A new instance. *)
Definition new : t := mk None None None.

(** [setupBrowser], the [BeforeScenario] hook, when Chromium launches. *)
Definition setupBrowser (this : t) : t :=
  mk (Some a_browser) (Some a_context) (Some a_page).

(** The calls a step makes on [this.page]. *)
Inductive PageCall : Type :=
| goto (url : string)
| waitForLoadState (state : string).

(** A run of a step: the calls it made on the page, and how it ended. *)
Record Run : Type := mkRun {
  calls : list PageCall;
  completion : Completion unit
}.

(** [navigateToUrl(url)], with [process.env] as [env].  The calls are
    those of a run in which the browser accepts each of them. *)
Definition navigateToUrl (this : t) (env : string -> option string) (url : string) : Run :=
  match page this with
  | None =>
      mkRun [] (Throw (Error "Page not initialized. Make sure BeforeScenario hook ran."))
  | Some _ =>
      let target : Completion string :=
        if JsString.startsWith url "env" then
          match env (JsString.replace url "env:" "") with
          | None | Some EmptyString =>
              Throw (Error ("Environment variable for URL '" ++ url ++ "' is not set."))
          | Some envUrl => Normal envUrl
          end
        else Normal url in
      match target with
      | Throw e => mkRun [] (Throw e)
      | Normal url => mkRun [goto url; waitForLoadState "networkidle"] (Normal tt)
      end
  end.

End FormSubmissionTest.

(* ================================================================= *)
(** ** A platform to run examples on

    A stand-in for Node.js, enough to run the requests of the repository's
    tests: origin-form request targets that need no normalisation, and the
    JSON texts listed in [JSON_parse]. *)

Module Example.

Definition hex_value (c : ascii) : nat :=
  let n := nat_of_ascii c in
  if (n <=? 57)%nat then n - 48 else if (n <=? 70)%nat then n - 55 else n - 87.

(** Percent-decoding, byte by byte. *)
Fixpoint unescape (s : string) : string :=
  match s with
  | EmptyString => EmptyString
  | String c s1 =>
      match s1 with
      | String a (String b rest) =>
          if Ascii.eqb c "%" && querystring.is_hex a && querystring.is_hex b
          then String (ascii_of_nat (16 * hex_value a + hex_value b)) (unescape rest)
          else String c (unescape s1)
      | _ => String c (unescape s1)
      end
  end.

(** [new URL(input, base)] for an [input] that is an absolute path with an
    optional query and a [base] that is an origin.  Any other input is
    reported as invalid, as Node.js does for [//]. *)
Definition URL_new (input base : string) : Completion URL :=
  if JsString.startsWith input "/" && negb (JsString.startsWith input "//") then
    let (p, q) := querystring.cut "?" input in
    Normal (mkURL (base ++ input) p
              (match q with
               | Some q => flat_map (querystring.pair_of unescape) (querystring.split "&" q)
               | None => []
               end))
  else Throw (TypeError "Invalid URL").

Definition quoted (s : string) : string :=
  String (ascii_of_nat 34) s ++ String (ascii_of_nat 34) "".

(** The body of the JSON test of the specification. *)
Definition jane : string := "{" ++ quoted "name" ++ ":" ++ quoted "Jane" ++ "}".

(** The malformed body of the repository's test. *)
Definition invalidJson : string := "{" ++ quoted "invalid" ++ ": json}".

(** [JSON.parse] on the texts used below: [jane] parses, and every other
    text used below is malformed. *)
Definition JSON_parse (text : string) : Completion JsValue :=
  if (text =? jane)%string then Normal (JObject [("name", JString "Jane")])
  else Throw (SyntaxError "Unexpected token").

(** A file system that holds the form page, and one that does not. *)
Definition form_html : string := "<form method=post action=/post></form>".

Definition readFile (path : string) : Completion string :=
  if (path =? "server/public/form.html")%string then Normal form_html
  else Throw (SystemError "ENOENT").

Definition node : Platform :=
  mkPlatform URL_new unescape JSON_parse readFile
             "2025-01-01T00:00:00.000Z" 1.5%float (fun _ => None).

Definition node_without_files : Platform :=
  mkPlatform URL_new unescape JSON_parse (fun _ => Throw (SystemError "ENOENT"))
             "2025-01-01T00:00:00.000Z" 1.5%float (fun _ => None).

(** A form body of 1001 fields: a thousand times [a=1], then [b=2]. *)
Definition many_fields : string :=
  (String.concat "" (repeat "a=1&" 1000) ++ "b=2")%string.

(** A request as the tests make them. *)
Definition request (method target : string) (headers : list (string * string))
           (body : string) : IncomingMessage :=
  {| req_url := Some target;
     req_method := Some method;
     req_headers :=
       ("host", Some (Str "localhost:3000"))
         :: map (fun kv => (fst kv, Some (Str (snd kv)))) headers;
     req_socket_remoteAddress := Some "::1";
     req_chunks := [body] |}.

End Example.

(* ================================================================= *)
(** ** The words of the specification *)

Module Spec.

(** "The value of that key's last occurrence". *)
Fixpoint last_value (key : string) (occurrences : list (string * string)) : option string :=
  match occurrences with
  | [] => None
  | (k, v) :: rest =>
      match last_value key rest with
      | Some v' => Some v'
      | None => if (k =? key)%string then Some v else None
      end
  end.

(** "All submitted values for [key], in submission order". *)
Definition values_of (key : string) (submitted : list (string * string)) : list string :=
  map snd (filter (fun kv => (fst kv =? key)%string) submitted).

(** The key and value of every non-empty piece of a form body, in order. *)
Definition submitted (unescape : string -> string) (body : string) : list (string * string) :=
  flat_map (querystring.pair_of unescape) (querystring.split "&" body).



(** "Dispatches to" a route: its handler is called, after the body has
    been buffered when the method is POST. *)
Definition dispatch (req : IncomingMessage) (route : Route) : Completion (list ResCall) :=
  match req_method req with
  | Some "POST" => Router_handlePost req (handler route)
  | _ => handler route req None
  end.

(** "A request matches a route": the same method and the same path. *)
Definition matches (req_method : option string) (pathname : string) (r : Route) : Prop :=
  req_method = Some (method r) /\ path r = pathname.

(** "A POST /post request": its URL is [u], with path [/post]. *)
Definition post_request (P : Platform) (req : IncomingMessage) (u : URL) : Prop :=
  request_URL P req = Normal u /\ req_method req = Some "POST" /\ pathname u = "/post".

(** "A GET /forms/post request". *)
Definition forms_request (P : Platform) (req : IncomingMessage) (u : URL) : Prop :=
  request_URL P req = Normal u /\ req_method req = Some "GET"
  /\ pathname u = "/forms/post".

(** "The mirror response" to it, and what the server calls to send it. *)
Definition mirror_response (P : Platform) (req : IncomingMessage) (u : URL) : Mirror.Response :=
  mirror P u req (Some (buffered_body req)).

Definition sends_mirror (P : Platform) (req : IncomingMessage) (r : Mirror.Response) : Prop :=
  server P req
  = Normal [writeHead 200 [("Content-Type", "application/json")];
            end_ (JSON_stringify (Mirror.to_js r) 2)].

(** "The Content-Type header contains [needle]". *)
Definition content_type_contains (req : IncomingMessage) (needle : string) : Prop :=
  exists ct, dict_get (req_headers req) "content-type" = Some (Str ct)
             /\ JsString.includes ct needle = true.

(** "[form] maps [key] to the ordered list of all its values in submission
    order" (and holds no [key] that was not submitted). *)
Definition form_lists_values (P : Platform) (req : IncomingMessage) (u : URL) (key : string)
  : Prop :=
  JsObject.get (Mirror.form (mirror_response P req u)) key
  = match values_of key (submitted (querystring_unescape P) (buffered_body req)) with
    | [] => None
    | values => Some values
    end.

(** The request headers as Node.js hands them over: names in lower case,
    each once, none of them [__proto__] (Node.js collects them by
    assignment into a plain object). *)
Definition node_headers (headers : Dict) : Prop :=
  NoDup (JsObject.keys headers)
  /\ Forall (fun name => JsString.toLowerCase name = name /\ name <> "__proto__")
            (JsObject.keys headers).

(** "The ordered list of the header's values, even when the header is
    single-valued". *)
Definition header_values (value : StrOrArr) : list string :=
  match value with
  | Str s => [s]
  | Arr l => l
  end.

(** How [querystring.parse] holds the values read so far for a key: no
    property, a string, or an array of two values or more. *)
Definition held (values : list string) : option (option StrOrArr) :=
  match values with
  | [] => None
  | [v] => Some (Some (Str v))
  | _ => Some (Some (Arr values))
  end.

Definition holds (obj : Dict) (read : list (string * string)) : Prop :=
  forall key, JsObject.get obj key = held (values_of key read).

(** "The name with only its first character capitalized". *)
Definition capitalized (name : string) : string :=
  match name with
  | EmptyString => EmptyString
  | String c rest => String (JsString.upper_ascii c) rest
  end.

End Spec.

(* ================================================================= *)
(** ** [server/main.ts]: starting the server *)

(** The value handed to [server.listen]: a number, or the text of the
    [PORT] variable. *)
Inductive PortValue : Type :=
| port_number (n : float)
| port_string (s : string).

(** A number is truthy unless it is zero or NaN. *)
Definition truthy_number (n : float) : bool :=
  negb (PrimFloat.is_zero n || PrimFloat.is_nan n).

(** [const PORT = port || process.env.PORT || 3000] of [startServer]. *)
Definition startServer_PORT (P : Platform) (port : option float) : PortValue :=
  let from_env :=
    match process_env P "PORT" with
    | None | Some EmptyString => port_number 3000%float
    | Some s => port_string s
    end in
  match port with
  | Some n => if truthy_number n then port_number n else from_env
  | None => from_env
  end.

(** The entry point: [process.argv[2] ? parseInt(process.argv[2]) :
    undefined], then [startServer(port)]. *)
Definition main_PORT (P : Platform) (parseInt : string -> float) (argv2 : option string)
  : PortValue :=
  let port :=
    match argv2 with
    | None | Some EmptyString => None
    | Some arg => Some (parseInt arg)
    end in
  startServer_PORT P port.

(* ================================================================= *)
(** ** Requests and answers, for the properties below *)

Module Http.

(** A request with method [m] whose URL has the path [p]. *)
Definition request_for (P : Platform) (req : IncomingMessage) (m p : string) : Prop :=
  exists u, request_URL P req = Normal u /\ req_method req = Some m /\ pathname u = p.

(** The calls of the router for a request it cannot route. *)
Definition not_found : list ResCall :=
  [writeHead 404 [("Content-Type", "text/plain")]; end_ (Text "Not Found")].

(** The four registrations of the module. *)
Definition registered (m : option string) (p : string) : Prop :=
  (m = Some "GET" /\ (p = "/forms/post" \/ p = "/health" \/ p = "/"))
  \/ (m = Some "POST" /\ p = "/post").

(** The value of the last header of [headers] that is defined and whose
    capitalised name is [key]. *)
Fixpoint last_header (key : string) (headers : Dict) : option (list string) :=
  match headers with
  | [] => None
  | (name, value) :: rest =>
      match last_header key rest with
      | Some values => Some values
      | None =>
          match value with
          | Some value =>
              if (Spec.capitalized name =? key)%string then Some (as_array value) else None
          | None => None
          end
      end
  end.

(** Header names in ASCII, as HTTP has them: on these the case mapping of
    [JsString] is that of JavaScript. *)
Definition ascii_name (name : string) : Prop :=
  Forall (fun c => nat_of_ascii c < 128) (list_ascii_of_string name).

Definition ascii_names (headers : Dict) : Prop :=
  Forall (fun kv => ascii_name (fst kv)) headers.

(** The request target as it was sent, without its query: what is left of
    [req.url] before the first question mark. *)
Definition path_without_query (req : IncomingMessage) : string :=
  fst (querystring.cut "?" (or_else (req_url req) "")).

(** "The (method, path-without-query) pair matches no registered route",
    read on the request target, and what is said of such a request. *)
Definition unmatched_as_sent (routes : list Route) (req : IncomingMessage) : Prop :=
  forall r, In r routes -> ~ Spec.matches (req_method req) (path_without_query req) r.

Definition answered_404_when_unmatched (P : Platform) (routes : list Route)
           (req : IncomingMessage) : Prop :=
  unmatched_as_sent routes req -> Router_handle P routes req = Normal not_found.

(** The segments of a path with [.] and [..] resolved, as the URL parser
    does: [stack] holds the segments kept so far, last first. *)
Fixpoint resolve_dots (segments stack : list string) : list string :=
  match segments with
  | [] => rev stack
  | segment :: rest =>
      if (segment =? ".")%string then
        match rest with
        | [] => rev (EmptyString :: stack)
        | _ => resolve_dots rest stack
        end
      else if (segment =? "..")%string then
        match rest with
        | [] => rev (EmptyString :: tl stack)
        | _ => resolve_dots rest (tl stack)
        end
      else resolve_dots rest (segment :: stack)
  end.

(** [new URL(input, base)] as in [Example.URL_new], with the dot segments of
    the path resolved. *)
Definition URL_new_resolving (input base : string) : Completion URL :=
  if JsString.startsWith input "/" && negb (JsString.startsWith input "//") then
    let (p, q) := querystring.cut "?" input in
    let pathname :=
      ("/" ++ JsString.join "/" (resolve_dots (tl (querystring.split "/" p)) []))%string in
    Normal (mkURL (base ++ pathname
                   ++ match q with Some q => "?" ++ q | None => "" end)%string
                  pathname
                  (match q with
                   | Some q => flat_map (querystring.pair_of Example.unescape)
                                        (querystring.split "&" q)
                   | None => []
                   end))
  else Throw (TypeError "Invalid URL").

Definition node_resolving : Platform :=
  mkPlatform URL_new_resolving Example.unescape Example.JSON_parse Example.readFile
             "2025-01-01T00:00:00.000Z" 1.5%float (fun _ => None).

(** The names of the properties of a value that is an object. *)
Definition fields (v : JsValue) : list string :=
  match v with
  | JObject o => map fst o
  | _ => []
  end.

End Http.

(* ================================================================= *)
(** ** The body as a stream

    [Router.handlePost] over the events of the request: each [data] event
    brings a [Buffer], which [chunk.toString()] decodes on its own, and the
    handler is called when [end] fires, if it does.  [toString] stands for
    that decoding (UTF-8, a malformed sequence giving replacement
    characters). *)

Module Stream.

Inductive BodyEvent : Type :=
| data (chunk : string)      (* the bytes of the Buffer *)
| end_of_body.

Section WithDecoder.
Variable toString : string -> string.

(** The body handed to the handler once [end] has fired: [None] while it
    has not. *)
Fixpoint body_at_end (events : list BodyEvent) (body : string) : option string :=
  match events with
  | [] => None
  | data chunk :: rest => body_at_end rest (body ++ toString chunk)
  | end_of_body :: _ => Some body
  end.

(** The calls on the response so far: [None] while no handler has run. *)
Definition answered (c : Completion (list ResCall)) : Completion (option (list ResCall)) :=
  calls <- c ;; Normal (Some calls).

(** [Router.handle], then the events of the body. *)
Definition handle (P : Platform) (routes : list Route) (req : IncomingMessage)
           (events : list BodyEvent) : Completion (option (list ResCall)) :=
  parsedUrl <- request_URL P req ;;
  let pathname := pathname parsedUrl in
  let method := req_method req in
  match find (route_matches method pathname) routes with
  | Some route =>
      match method with
      | Some "POST" =>
          match body_at_end events "" with
          | Some body => answered (handler route req (Some body))
          | None => Normal None
          end
      | _ => answered (handler route req None)
      end
  | None => Normal (Some Http.not_found)
  end.

Definition server (P : Platform) (req : IncomingMessage) (events : list BodyEvent)
  : Completion (option (list ResCall)) :=
  handle P (router_routes P) req events.

End WithDecoder.
End Stream.

(* ================================================================= *)
(** ** [specs/steps/form.ts]: the other steps

    A step talks to the browser through Playwright.  The browser is a state
    [S] and three functions on it ([Playwright]): what a call returns or
    throws, and the state it leaves.  A step is a [Script]: from a state, its
    outcome, the state it ends in and the calls it made, in order. *)

Module Steps.

(** What a step can throw: an error of JavaScript or of Playwright, or the
    [AssertionError] of [assert]. *)
Inductive Thrown : Type :=
| thrown (e : JsError)
| AssertionError (message : string).

Inductive Outcome (A : Type) : Type :=
| Returned (a : A)
| Raised (t : Thrown).

Arguments Returned {A} a.
Arguments Raised {A} t.

(** The calls that return nothing. *)
Inductive Action : Type :=
| goto (url : string)
| waitForSelector (selector : string)      (* with [{ state: "visible" }] *)
| fill (selector value : string)
| check (selector : string)
| click (selector : string)
| waitForLoadState (state : string)
| page_close
| context_close
| browser_close.

(** The calls that return a text. *)
Inductive Read : Type :=
| content
| innerText (selector : string).

Inductive Call : Type :=
| isVisible (selector : string)
| did (a : Action)
| read (r : Read).

Record Playwright (S : Type) : Type := mkPlaywright {
  pw_isVisible : string -> S -> Outcome bool * S;
  pw_do : Action -> S -> Outcome unit * S;
  pw_read : Read -> S -> Outcome string * S
}.

Arguments mkPlaywright {S} _ _ _.
Arguments pw_isVisible {S} _ _ _.
Arguments pw_do {S} _ _ _.
Arguments pw_read {S} _ _ _.

(** What running a script gives. *)
Record Ran (S A : Type) : Type := mkRan {
  outcome : Outcome A;
  final : S;
  trace : list Call
}.

Arguments mkRan {S A} _ _ _.
Arguments outcome {S A} _.
Arguments final {S A} _.
Arguments trace {S A} _.

Definition Script (S A : Type) : Type := S -> Ran S A.

Section Scripts.
Context {S : Type}.
Variable pw : Playwright S.

Definition ret {A : Type} (a : A) : Script S A := fun s => mkRan (Returned a) s [].

Definition throw {A : Type} (t : Thrown) : Script S A := fun s => mkRan (Raised t) s [].

(** [await first; rest]: a throw ends the script. *)
Definition and_then {A B : Type} (first : Script S A) (rest : A -> Script S B) : Script S B :=
  fun s =>
    let r := first s in
    match outcome r with
    | Raised t => mkRan (Raised t) (final r) (trace r)
    | Returned a =>
        let r' := rest a (final r) in
        mkRan (outcome r') (final r') (trace r ++ trace r')
    end.

(** [try { body } catch (error) { handler }] *)
Definition try_catch {A : Type} (body : Script S A) (handler : Script S A) : Script S A :=
  fun s =>
    let r := body s in
    match outcome r with
    | Returned a => r
    | Raised _ =>
        let r' := handler (final r) in
        mkRan (outcome r') (final r') (trace r ++ trace r')
    end.

Definition call_isVisible (selector : string) : Script S bool :=
  fun s => let (o, s') := pw_isVisible pw selector s in mkRan o s' [isVisible selector].

Definition call_do (a : Action) : Script S unit :=
  fun s => let (o, s') := pw_do pw a s in mkRan o s' [did a].

Definition call_read (r : Read) : Script S string :=
  fun s => let (o, s') := pw_read pw r s in mkRan o s' [read r].

(** The loop of [enterTextIntoField] and of [clickButton]:
    [for (const selector of selectors) { try { if (await
    this.page.isVisible(selector)) { attempt; found = true; break; } }
    catch (error) { continue; } }].  Its value is [found]. *)
Fixpoint for_selectors (selectors : list string) (attempt : string -> Script S unit)
  : Script S bool :=
  match selectors with
  | [] => ret false
  | selector :: rest =>
      and_then
        (try_catch
           (and_then (call_isVisible selector)
                     (fun visible =>
                        if visible
                        then and_then (attempt selector) (fun _ => ret true)
                        else ret false))
           (ret false))
        (fun found => if found then ret true else for_selectors rest attempt)
  end.

Definition quoted (s : string) : string :=
  (String (ascii_of_nat 34) s ++ String (ascii_of_nat 34) "")%string.

(** The selectors tried for a field, in order. *)
Definition field_selectors (fieldName : string) : list string :=
  [("input[name=" ++ quoted fieldName ++ "]")%string;
   ("textarea[name=" ++ quoted fieldName ++ "]")%string;
   ("#" ++ fieldName)%string;
   ("[data-testid=" ++ quoted fieldName ++ "]")%string].

(** The selectors tried for a button, in order. *)
Definition button_selectors (buttonText : string) : list string :=
  [("button:has-text(" ++ quoted buttonText ++ ")")%string;
   ("input[type=" ++ quoted "submit" ++ "][value=" ++ quoted buttonText ++ "]")%string;
   ("input[type=" ++ quoted "button" ++ "][value=" ++ quoted buttonText ++ "]")%string;
   ("[role=" ++ quoted "button" ++ "]:has-text(" ++ quoted buttonText ++ ")")%string;
   ("button:text(" ++ quoted buttonText ++ ")")%string;
   ("input[value=" ++ quoted buttonText ++ "]")%string].

(** [if (!this.page) throw new Error("Page not initialized.")] *)
Definition with_page {A : Type} (this : FormSubmissionTest.t) (body : Script S A) : Script S A :=
  match FormSubmissionTest.page this with
  | None => throw (thrown (Error "Page not initialized."))
  | Some _ => body
  end.

(** [navigateToUrl(url)] with a browser that may refuse a call, and
    [process.env] as [env]. *)
Definition navigateToUrl (this : FormSubmissionTest.t) (env : string -> option string)
           (url : string) : Script S unit :=
  match FormSubmissionTest.page this with
  | None =>
      throw (thrown (Error "Page not initialized. Make sure BeforeScenario hook ran."))
  | Some _ =>
      let navigate (url : string) : Script S unit :=
        and_then (call_do (goto url)) (fun _ => call_do (waitForLoadState "networkidle")) in
      if JsString.startsWith url "env" then
        match env (JsString.replace url "env:" "") with
        | None | Some EmptyString =>
            throw (thrown (Error ("Environment variable for URL '" ++ url
                                  ++ "' is not set.")))
        | Some envUrl => navigate envUrl
        end
      else navigate url
  end.

(** A run [r] from the state [s] that calls [goto(target)] and, when the
    browser accepts it, [waitForLoadState("networkidle")], and nothing else;
    it ends as the call the browser refused, or as the last one. *)
Definition goes_to (target : string) (s : S) (r : Ran S unit) : Prop :=
  match pw_do pw (goto target) s with
  | (Raised t, s1) =>
      outcome r = Raised t /\ final r = s1 /\ trace r = [did (goto target)]
  | (Returned _, s1) =>
      outcome r = fst (pw_do pw (waitForLoadState "networkidle") s1)
      /\ final r = snd (pw_do pw (waitForLoadState "networkidle") s1)
      /\ trace r = [did (goto target); did (waitForLoadState "networkidle")]
  end.

(** [enterTextIntoField(text, fieldName)], for a [text] that is a string
    (as Gauge passes it), so that [String(text)] is [text]. *)
Definition enterTextIntoField (this : FormSubmissionTest.t) (text fieldName : string)
  : Script S unit :=
  with_page this
    (and_then
       (for_selectors (field_selectors fieldName)
          (fun selector =>
             and_then (call_do (waitForSelector selector))
                      (fun _ => call_do (fill selector text))))
       (fun fieldFound =>
          if fieldFound then ret tt
          else throw (thrown (Error ("Could not find field with name '"
                                     ++ fieldName ++ "'"))))).

Definition clickButton (this : FormSubmissionTest.t) (buttonText : string) : Script S unit :=
  with_page this
    (and_then
       (for_selectors (button_selectors buttonText)
          (fun selector =>
             and_then (call_do (click selector))
                      (fun _ => call_do (waitForLoadState "networkidle"))))
       (fun buttonFound =>
          if buttonFound then ret tt
          else throw (thrown (Error ("Could not find button with text '"
                                     ++ buttonText ++ "'"))))).

Definition checkCheckbox (this : FormSubmissionTest.t) (option fieldName : string)
  : Script S unit :=
  with_page this
    (let checkboxSelector :=
       ("input[type=" ++ quoted "checkbox" ++ "][name=" ++ quoted fieldName
        ++ "][value=" ++ quoted (JsString.toLowerCase option) ++ "]")%string in
     and_then (call_do (waitForSelector checkboxSelector))
              (fun _ => call_do (check checkboxSelector))).

Definition selectRadioButton (this : FormSubmissionTest.t) (option fieldName : string)
  : Script S unit :=
  with_page this
    (let radioSelector :=
       ("input[type=" ++ quoted "radio" ++ "][name=" ++ quoted fieldName
        ++ "][value=" ++ quoted (JsString.toLowerCase option) ++ "]")%string in
     and_then (call_do (waitForSelector radioSelector))
              (fun _ => call_do (check radioSelector))).

(** [assert(value, message)] *)
Definition assert {A : Type} (value : bool) (message : string) (rest : Script S A) : Script S A :=
  if value then rest else throw (AssertionError message).

Definition verifyResponseContains (this : FormSubmissionTest.t) (text : string) : Script S unit :=
  with_page this
    (and_then (call_do (waitForLoadState "networkidle")) (fun _ =>
     and_then (call_read content) (fun pageContent =>
     and_then (call_read (innerText "body")) (fun visibleText =>
     let textFound :=
       JsString.includes pageContent text || JsString.includes visibleText text in
     assert textFound ("Expected text '" ++ text ++ "' not found in the response")
            (ret tt))))).

(** [teardownBrowser], the [AfterScenario] hook. *)
Definition teardownBrowser (this : FormSubmissionTest.t) : Script S unit :=
  and_then (match FormSubmissionTest.page this with
            | Some _ => call_do page_close
            | None => ret tt
            end) (fun _ =>
  and_then (match FormSubmissionTest.context this with
            | Some _ => call_do context_close
            | None => ret tt
            end) (fun _ =>
  match FormSubmissionTest.browser this with
  | Some _ => call_do browser_close
  | None => ret tt
  end)).

End Scripts.

(** The closes [teardownBrowser] owes, in its order. *)
Definition owed (this : FormSubmissionTest.t) : list Call :=
  (match FormSubmissionTest.page this with Some _ => [did page_close] | None => [] end)
  ++ (match FormSubmissionTest.context this with Some _ => [did context_close] | None => [] end)
  ++ (match FormSubmissionTest.browser this with Some _ => [did browser_close] | None => [] end).

(** A browser for the examples.  Its state is the text last typed into the
    [#custname] field; only [#custname] and the [Submit order] button are
    visible, and the answer page shows what was typed. *)
Definition shop : Playwright string :=
  mkPlaywright
    (fun selector typed =>
       (Returned ((selector =? "#custname")%string
                  || (selector =? "button:has-text(" ++ quoted "Submit order" ++ ")")%string),
        typed))
    (fun a typed =>
       match a with
       | fill _ value => (Returned tt, value)
       | _ => (Returned tt, typed)
       end)
    (fun r typed =>
       match r with
       | content => (Returned ("<body>" ++ typed ++ "</body>")%string, typed)
       | innerText _ => (Returned typed, typed)
       end).

(** A browser that has gone away: every call throws. *)
Definition gone : Playwright unit :=
  mkPlaywright
    (fun _ s => (Raised (thrown (Error "Target closed")), s))
    (fun _ s => (Raised (thrown (Error "Target closed")), s))
    (fun _ s => (Raised (thrown (Error "Target closed")), s)).

End Steps.

(* ================================================================= *)
(** ** [specs/steps/vowels.ts] *)

Module Vowels.

Definition vowels : list string := ["a"; "e"; "i"; "o"; "u"].

(** [word.split("")]: the characters, each as a string.  (For a word
    outside ASCII the pieces are bytes here and code units in JavaScript; none
    of them is a vowel in either reading.) *)
Fixpoint split_chars (word : string) : list string :=
  match word with
  | EmptyString => []
  | String c rest => String c EmptyString :: split_chars rest
  end.

(** [array.includes(elem)] *)
Definition includes (array : list string) (elem : string) : bool :=
  existsb (fun x => (x =? elem)%string) array.

Definition numberOfVowels (word : string) : nat :=
  length (filter (fun elem => includes vowels elem) (split_chars word)).

End Vowels.

(* ================================================================= *)
(** ** The router *)

Section RouterFacts.
Variable P : Platform.

Lemma route_matches_iff (m : option string) (pathname : string) (r : Route) :
  route_matches m pathname r = true <-> Spec.matches m pathname r.
Proof.
  unfold route_matches, Spec.matches. rewrite andb_true_iff.
  destruct m as [m|]; split; intros [H1 H2].
  - apply String.eqb_eq in H1, H2. now subst.
  - inversion H1; subst. now rewrite !String.eqb_refl.
  - discriminate.
  - discriminate.
Qed.

Lemma find_none_iff (m : option string) (pathname : string) (routes : list Route) :
  find (route_matches m pathname) routes = None
  <-> forall r, In r routes -> ~ Spec.matches m pathname r.
Proof.
  split.
  - intros H r Hin Hm. apply route_matches_iff in Hm.
    pose proof (find_none _ _ H r Hin) as Hf. congruence.
  - intros H. induction routes as [|r routes IH]; [reflexivity|].
    simpl. destruct (route_matches m pathname r) eqn:E.
    + apply route_matches_iff in E. exfalso. apply (H r); [now left | exact E].
    + apply IH. intros r' Hin. apply H. now right.
Qed.

Lemma find_first (m : option string) (pathname : string) (before after : list Route) (r : Route) :
  (forall r', In r' before -> ~ Spec.matches m pathname r') ->
  Spec.matches m pathname r ->
  find (route_matches m pathname) (before ++ r :: after) = Some r.
Proof.
  intros Hb Hr. induction before as [|b before IH]; simpl.
  - apply route_matches_iff in Hr. now rewrite Hr.
  - destruct (route_matches m pathname b) eqn:E.
    + apply route_matches_iff in E. exfalso. apply (Hb b); [now left | exact E].
    + apply IH. intros r' Hin. apply Hb. now right.
Qed.

Lemma find_skips_later_duplicate (m : option string) (pathname : string)
      (routes rest : list Route) (r dup : Route) :
  In r routes -> method r = method dup -> path r = path dup ->
  find (route_matches m pathname) (routes ++ dup :: rest)
  = find (route_matches m pathname) (routes ++ rest).
Proof.
  intros Hin Hm Hp. induction routes as [|a routes IH]; [destruct Hin|].
  simpl. destruct (route_matches m pathname a) eqn:E; [reflexivity|].
  destruct Hin as [->|Hin]; [|now apply IH].
  assert (Hd : route_matches m pathname dup = false).
  { unfold route_matches in *. now rewrite <- Hm, <- Hp. }
  clear IH. induction routes as [|b routes IH]; simpl.
  - now rewrite Hd.
  - destruct (route_matches m pathname b); [reflexivity | exact IH].
Qed.

(** C6, as amended.  A request whose URL parses and whose method and path
    (the pathname of the parsed URL, the query left out) match no registered
    route, by equality of strings, is answered by [Router.handle] with
    [writeHead(404, {"Content-Type": "text/plain"})] followed by
    [end("Not Found")]: the client receives status 404, that header and that
    body, and nothing else is called. *)
Theorem handle_unmatched_is_404 (routes : list Route) (req : IncomingMessage) (u : URL) :
  request_URL P req = Normal u ->
  (forall r, In r routes -> ~ Spec.matches (req_method req) (pathname u) r) ->
  Router_handle P routes req
  = Normal [writeHead 404 [("Content-Type", "text/plain")]; end_ (Text "Not Found")]
  /\ (forall calls, Router_handle P routes req = Normal calls ->
      sent calls = Some (mkSent 404 [("Content-Type", "text/plain")] (Text "Not Found"))).
Proof.
  intros Hu Hno.
  assert (H : Router_handle P routes req
              = Normal [writeHead 404 [("Content-Type", "text/plain")];
                        end_ (Text "Not Found")]).
  { unfold Router_handle. rewrite Hu. simpl.
    apply find_none_iff in Hno. now rewrite Hno. }
  split; [exact H|].
  intros calls Hc. rewrite H in Hc. inversion Hc. reflexivity.
Qed.

(** C7.  [get] and [post] append an entry to the list of routes.  When a
    route [later] has the method and path of a route [first] registered
    before it, [Router.handle] calls the handler of [first] for every
    request that matches them and that no earlier route matches, and
    [later] is never reached: with or without it, every request is handled
    the same way. *)
Theorem first_registered_route_wins
        (before between after : list Route) (first later : Route) :
  method first = method later ->
  path first = path later ->
  (forall routes p h, Router_get routes p h = routes ++ [mkRoute "GET" p h])
  /\ (forall routes p h, Router_post routes p h = routes ++ [mkRoute "POST" p h])
  /\ (forall req u,
        request_URL P req = Normal u ->
        Spec.matches (req_method req) (pathname u) first ->
        (forall r, In r before -> ~ Spec.matches (req_method req) (pathname u) r) ->
        Router_handle P (before ++ first :: between ++ later :: after) req
        = Spec.dispatch req first)
  /\ (forall req,
        Router_handle P (before ++ first :: between ++ later :: after) req
        = Router_handle P (before ++ first :: between ++ after) req).
Proof.
  intros Hm Hp. repeat split.
  - intros req u Hu Hmatch Hb.
    unfold Router_handle, Spec.dispatch. rewrite Hu. simpl.
    now rewrite (find_first _ _ before (between ++ later :: after) first Hb Hmatch).
  - intros req.
    unfold Router_handle. destruct (request_URL P req) as [u|e]; [simpl|reflexivity].
    replace (before ++ first :: between ++ later :: after)
      with ((before ++ first :: between) ++ later :: after)
      by (rewrite <- app_assoc; reflexivity).
    replace (before ++ first :: between ++ after)
      with ((before ++ first :: between) ++ after)
      by (rewrite <- app_assoc; reflexivity).
    rewrite (find_skips_later_duplicate _ _ (before ++ first :: between) after first later);
      auto.
    apply in_or_app. right. now left.
Qed.

End RouterFacts.

(** The routes of the server match no [GET /nonexistent], and no
    [GET /health/] either: a trailing slash makes another path. *)
Lemma handle_unmatched_is_404_witness :
  let not_found :=
    Normal [writeHead 404 [("Content-Type", "text/plain")]; end_ (Text "Not Found")] in
  (request_URL Example.node (Example.request "GET" "/nonexistent" [] "")
   = Normal (mkURL "http://localhost:3000/nonexistent" "/nonexistent" [])
   /\ server Example.node (Example.request "GET" "/nonexistent" [] "") = not_found)
  /\ server Example.node (Example.request "GET" "/health/" [] "") = not_found.
Proof.
  intros not_found.
  assert (Hnone : forall target,
             (forall r, In r (router_routes Example.node) -> path r <> target) ->
             forall r, In r (router_routes Example.node) ->
                       ~ Spec.matches (Some "GET") target r)
    by (intros target H r Hin [_ Hpath]; exact (H r Hin Hpath)).
  split; [split; [reflexivity|]|].
  - apply (handle_unmatched_is_404 Example.node (router_routes Example.node)
             (Example.request "GET" "/nonexistent" [] "")
             (mkURL "http://localhost:3000/nonexistent" "/nonexistent" []) eq_refl).
    apply Hnone. intros r Hin.
    repeat (destruct Hin as [<-|Hin]; [discriminate|]). destruct Hin.
  - apply (handle_unmatched_is_404 Example.node (router_routes Example.node)
             (Example.request "GET" "/health/" [] "")
             (mkURL "http://localhost:3000/health/" "/health/" []) eq_refl).
    apply Hnone. intros r Hin.
    repeat (destruct Hin as [<-|Hin]; [discriminate|]). destruct Hin.
Defined.

(** A second [GET /] route registered after the server's own is never called. *)
Lemma first_registered_route_wins_witness :
  let other : Handler := fun _ _ => Normal [end_ (Text "other")] in
  let req := Example.request "GET" "/" [] "" in
  Router_handle Example.node (Router_get (router_routes Example.node) "/" other) req
  = root_handler req None.
Proof.
  intros other req.
  refine (proj1 (proj2 (proj2
            (first_registered_route_wins Example.node
               [mkRoute "GET" "/forms/post" (forms_post_handler Example.node);
                mkRoute "POST" "/post" (post_handler Example.node);
                mkRoute "GET" "/health" (health_handler Example.node)]
               [] []
               (mkRoute "GET" "/" root_handler) (mkRoute "GET" "/" other)
               eq_refl eq_refl)))
            req (mkURL "http://localhost:3000/" "/" []) eq_refl _ _).
  - split; reflexivity.
  - intros r Hin [_ Hpath].
    repeat (destruct Hin as [<-|Hin]; [discriminate Hpath|]).
    destruct Hin.
Defined.

(* ================================================================= *)
(** ** The routes of the server *)

Section RouteFacts.
Variable P : Platform.

(** A POST to [/post] reaches the mirror handler with the buffered body,
    and the handler answers 200 with the mirror response. *)
Lemma server_post (req : IncomingMessage) (u : URL) :
  Spec.post_request P req u ->
  Spec.sends_mirror P req (Spec.mirror_response P req u).
Proof.
  intros (Hu & Hm & Hp). unfold Spec.sends_mirror, server, Router_handle.
  rewrite Hu. cbn [bind]. rewrite Hm, Hp. cbn.
  unfold Router_handlePost, post_handler. rewrite Hu. reflexivity.
Qed.

Lemma server_forms_post (req : IncomingMessage) (u : URL) :
  Spec.forms_request P req u ->
  server P req = forms_post_handler P req None.
Proof.
  intros (Hu & Hm & Hp). unfold server, Router_handle.
  rewrite Hu. cbn [bind]. rewrite Hm, Hp. reflexivity.
Qed.

Lemma contentType_of_string (req : IncomingMessage) (ct : string) :
  dict_get (req_headers req) "content-type" = Some (Str ct) ->
  contentType_of req = Str ct.
Proof.
  intros H. unfold contentType_of. rewrite H. now destruct ct.
Qed.

Lemma content_type_contains_includes (req : IncomingMessage) (needle : string) :
  Spec.content_type_contains req needle ->
  ct_includes (contentType_of req) needle = true.
Proof.
  intros (ct & Hct & Hin). now rewrite (contentType_of_string _ _ Hct).
Qed.

(** C1.  For a POST /post request whose Content-Type contains
    [application/json]: the server throws nothing and answers with status
    200 and the mirror response; its [data] is the body as received; its
    [json] is the value [JSON.parse] returns for the body, and [null] when
    [JSON.parse] throws. *)
Theorem json_body_is_parsed_or_null (req : IncomingMessage) (u : URL) :
  Spec.post_request P req u ->
  Spec.content_type_contains req "application/json" ->
  let r := Spec.mirror_response P req u in
  Spec.sends_mirror P req r
  /\ (forall calls, server P req = Normal calls ->
      option_map statusCode (sent calls) = Some 200)
  /\ Mirror.data r = Some (buffered_body req)
  /\ match JSON_parse P (buffered_body req) with
     | Normal value => Mirror.json r = value
     | Throw _ => Mirror.json r = JNull
     end.
Proof.
  intros Hreq Hct r. pose proof (server_post _ _ Hreq) as Hs.
  repeat split.
  - exact Hs.
  - intros calls Hc. unfold Spec.sends_mirror in Hs. rewrite Hs in Hc.
    inversion Hc. reflexivity.
  - subst r. unfold Spec.mirror_response, mirror, json_and_form. cbn [Mirror.json].
    rewrite (content_type_contains_includes _ _ Hct). cbn [fst].
    now destruct (JSON_parse P (buffered_body req)).
Qed.

(** C9.  For a POST /post request whose Content-Type contains both
    [application/json] and [application/x-www-form-urlencoded], only the
    JSON branch runs: [json] is what the attempt to parse the body gives
    (the parsed value, or null), and [form] is the empty map. *)
Theorem json_checked_before_form (req : IncomingMessage) (u : URL) :
  Spec.post_request P req u ->
  Spec.content_type_contains req "application/json" ->
  Spec.content_type_contains req "application/x-www-form-urlencoded" ->
  let r := Spec.mirror_response P req u in
  Spec.sends_mirror P req r
  /\ Mirror.json r = try_or (JSON_parse P (buffered_body req)) JNull
  /\ Mirror.form r = JsObject.empty.
Proof.
  intros Hreq Hjson Hform r. split; [now apply server_post|].
  subst r. unfold Spec.mirror_response, mirror, json_and_form.
  cbn [Mirror.json Mirror.form].
  rewrite (content_type_contains_includes _ _ Hjson). split; reflexivity.
Qed.

(** C10.  For a GET /forms/post request: when reading the file fails, the
    client receives status 404 with the body [File not found], which is
    not the [Not Found] of the router; when it succeeds, the client
    receives status 200, Content-Type [text/html] and the bytes of the
    file. *)
Theorem forms_post_file_or_404 (req : IncomingMessage) (u : URL) :
  Spec.forms_request P req u ->
  exists calls,
    server P req = Normal calls
    /\ match fs_readFile P "server/public/form.html" with
       | Throw _ =>
           sent calls
           = Some (mkSent 404 [("Content-Type", "text/plain")] (Text "File not found"))
           /\ option_map body (sent calls) <> Some (Text "Not Found")
       | Normal data =>
           sent calls = Some (mkSent 200 [("Content-Type", "text/html")] (Text data))
       end.
Proof.
  intros Hreq. rewrite (server_forms_post _ _ Hreq).
  unfold forms_post_handler. change (path_join _) with "server/public/form.html".
  destruct (fs_readFile P "server/public/form.html") as [data|e];
    eexists; (split; [reflexivity|]); cbn.
  - reflexivity.
  - split; [reflexivity | discriminate].
Qed.

End RouteFacts.

(** The JSON requests of the repository's tests: a body that parses and one
    that does not. *)
Lemma json_body_is_parsed_or_null_witness :
  let u := mkURL "http://localhost:3000/post" "/post" [] in
  let good := Example.request "POST" "/post" [("content-type", "application/json")]
                              Example.jane in
  let bad := Example.request "POST" "/post" [("content-type", "application/json")]
                             Example.invalidJson in
  (Spec.post_request Example.node good u
   /\ Mirror.json (Spec.mirror_response Example.node good u)
      = JObject [("name", JString "Jane")])
  /\ (Spec.sends_mirror Example.node bad (Spec.mirror_response Example.node bad u)
      /\ Mirror.json (Spec.mirror_response Example.node bad u) = JNull
      /\ Mirror.data (Spec.mirror_response Example.node bad u) = Some Example.invalidJson).
Proof.
  intros u good bad.
  assert (Hgood : Spec.post_request Example.node good u) by (repeat split).
  assert (Hbad : Spec.post_request Example.node bad u) by (repeat split).
  assert (Hct : forall body,
             Spec.content_type_contains
               (Example.request "POST" "/post" [("content-type", "application/json")] body)
               "application/json")
    by (intros body; exists "application/json"; split; reflexivity).
  split.
  - split; [exact Hgood|].
    exact (proj2 (proj2 (proj2
             (json_body_is_parsed_or_null Example.node good u Hgood (Hct _))))).
  - destruct (json_body_is_parsed_or_null Example.node bad u Hbad (Hct _))
      as (Hs & _ & Hdata & Hjson).
    split; [exact Hs | split; [exact Hjson | exact Hdata]].
Defined.

Lemma json_checked_before_form_witness :
  let u := mkURL "http://localhost:3000/post" "/post" [] in
  let req := Example.request
               "POST" "/post"
               [("content-type", "application/json, application/x-www-form-urlencoded")]
               "topping=bacon" in
  let r := Spec.mirror_response Example.node req u in
  Spec.post_request Example.node req u
  /\ Mirror.json r = JNull /\ Mirror.form r = [].
Proof.
  intros u req r.
  assert (Hreq : Spec.post_request Example.node req u) by (repeat split).
  assert (Hct : forall needle,
             JsString.includes "application/json, application/x-www-form-urlencoded" needle
             = true ->
             Spec.content_type_contains req needle).
  { intros needle H.
    exists "application/json, application/x-www-form-urlencoded". now split. }
  split; [exact Hreq|].
  exact (proj2 (json_checked_before_form Example.node req u Hreq
                  (Hct "application/json" eq_refl)
                  (Hct "application/x-www-form-urlencoded" eq_refl))).
Defined.

Lemma forms_post_file_or_404_witness :
  let u := mkURL "http://localhost:3000/forms/post" "/forms/post" [] in
  let req := Example.request "GET" "/forms/post" [] "" in
  (exists calls,
      server Example.node req = Normal calls
      /\ sent calls
         = Some (mkSent 200 [("Content-Type", "text/html")] (Text Example.form_html)))
  /\ (exists calls,
         server Example.node_without_files req = Normal calls
         /\ sent calls
            = Some (mkSent 404 [("Content-Type", "text/plain")] (Text "File not found"))
         /\ option_map body (sent calls) <> Some (Text "Not Found")).
Proof.
  intros u req. split.
  - exact (forms_post_file_or_404 Example.node req u
             (conj eq_refl (conj eq_refl eq_refl))).
  - exact (forms_post_file_or_404 Example.node_without_files req u
             (conj eq_refl (conj eq_refl eq_refl))).
Defined.

(* ================================================================= *)
(** ** Objects *)

Section ObjectFacts.
Context {V : Type}.
Implicit Types (o : JsObject.t V) (k key : string) (v : V).

Lemma get_define_same o k v : JsObject.get (JsObject.define o k v) k = Some v.
Proof.
  induction o as [|[k' v'] o IH]; simpl.
  - now rewrite String.eqb_refl.
  - destruct (k' =? k)%string eqn:E; simpl; rewrite E; [reflexivity | exact IH].
Qed.

Lemma get_define_other o k v key :
  k <> key -> JsObject.get (JsObject.define o k v) key = JsObject.get o key.
Proof.
  intros Hne. induction o as [|[k' v'] o IH]; simpl.
  - apply String.eqb_neq in Hne. now rewrite Hne.
  - destruct (k' =? k)%string eqn:E; simpl.
    + apply String.eqb_eq in E. subst k'.
      apply String.eqb_neq in Hne. now rewrite Hne.
    + now rewrite IH.
Qed.

Lemma get_define o k v key :
  JsObject.get (JsObject.define o k v) key
  = if (k =? key)%string then Some v else JsObject.get o key.
Proof.
  destruct (k =? key)%string eqn:E.
  - apply String.eqb_eq in E. subst. apply get_define_same.
  - apply String.eqb_neq in E. now apply get_define_other.
Qed.

Lemma in_keys_define o k v key :
  In key (JsObject.keys (JsObject.define o k v)) <-> key = k \/ In key (JsObject.keys o).
Proof.
  induction o as [|[k' v'] o IH]; simpl.
  - intuition.
  - destruct (k' =? k)%string eqn:E; simpl.
    + apply String.eqb_eq in E. subst k'. intuition.
    + rewrite IH. intuition.
Qed.

Lemma NoDup_keys_define o k v :
  NoDup (JsObject.keys o) -> NoDup (JsObject.keys (JsObject.define o k v)).
Proof.
  induction o as [|[k' v'] o IH]; simpl; intros Hnd.
  - constructor; [intros [] | constructor].
  - inversion Hnd as [|? ? Hnotin Hnd']; subst.
    destruct (k' =? k)%string eqn:E; simpl.
    + now constructor.
    + constructor; [|now apply IH].
      rewrite in_keys_define. intros [->|Hin]; [|contradiction].
      now rewrite String.eqb_refl in E.
Qed.

Lemma get_none_not_in_keys o key :
  JsObject.get o key = None <-> ~ In key (JsObject.keys o).
Proof.
  induction o as [|[k' v'] o IH]; simpl.
  - intuition.
  - destruct (k' =? key)%string eqn:E.
    + apply String.eqb_eq in E. subst. split; [discriminate | intros H; exfalso; auto].
    + apply String.eqb_neq in E. rewrite IH. intuition.
Qed.

(** With distinct keys, a property that is listed is the one [get] finds. *)
Lemma get_of_in o key v :
  NoDup (JsObject.keys o) -> In (key, v) o -> JsObject.get o key = Some v.
Proof.
  induction o as [|[k' v'] o IH]; simpl; intros Hnd Hin; [destruct Hin|].
  inversion Hnd as [|? ? Hnotin Hnd']; subst.
  destruct Hin as [Heq|Hin].
  - inversion Heq; subst. now rewrite String.eqb_refl.
  - destruct (k' =? key)%string eqn:E; [|now apply IH].
    apply String.eqb_eq in E. subst k'. exfalso. apply Hnotin.
    change key with (fst (key, v)). now apply in_map.
Qed.

Lemma in_of_get o key v :
  JsObject.get o key = Some v -> In (key, v) o.
Proof.
  induction o as [|[k' v'] o IH]; simpl; [discriminate|].
  destruct (k' =? key)%string eqn:E.
  - apply String.eqb_eq in E. intros H. inversion H; subst. now left.
  - intros H. right. now apply IH.
Qed.

End ObjectFacts.

(* ================================================================= *)
(** ** [args]: the query string *)

Section ArgsFacts.

Lemma get_define_entries (es : list (string * string)) (o : JsObject.t string) (key : string) :
  JsObject.get (fold_left (fun o e => JsObject.define o (fst e) (snd e)) es o) key
  = match Spec.last_value key es with
    | Some v => Some v
    | None => JsObject.get o key
    end.
Proof.
  revert o. induction es as [|[k v] es IH]; intros o; simpl; [reflexivity|].
  rewrite IH, get_define.
  destruct (Spec.last_value key es); [reflexivity|].
  now destruct (k =? key)%string.
Qed.

Lemma keys_define_entries (es : list (string * string)) (o : JsObject.t string) (key : string) :
  In key (JsObject.keys (fold_left (fun o e => JsObject.define o (fst e) (snd e)) es o))
  <-> In key (JsObject.keys o) \/ In key (map fst es).
Proof.
  revert o. induction es as [|[k v] es IH]; intros o; simpl; [intuition|].
  rewrite IH, in_keys_define. intuition.
Qed.

Lemma NoDup_define_entries (es : list (string * string)) (o : JsObject.t string) :
  NoDup (JsObject.keys o) ->
  NoDup (JsObject.keys (fold_left (fun o e => JsObject.define o (fst e) (snd e)) es o)).
Proof.
  revert o. induction es as [|[k v] es IH]; intros o Hnd; simpl; [exact Hnd|].
  apply IH. now apply NoDup_keys_define.
Qed.

(** C4.  For a POST /post request, [args] holds each key of the query
    string once, with one string for it (not a list): the value of the
    last occurrence of the key among the parameters of the URL; and it
    holds no other key. *)
Theorem args_last_value_wins (P : Platform) (req : IncomingMessage) (u : URL) :
  Spec.post_request P req u ->
  let r := Spec.mirror_response P req u in
  Spec.sends_mirror P req r
  /\ NoDup (JsObject.keys (Mirror.args r))
  /\ forall key,
       JsObject.get (Mirror.args r) key = Spec.last_value key (searchParams u)
       /\ (In key (JsObject.keys (Mirror.args r)) <-> In key (map fst (searchParams u))).
Proof.
  intros Hreq r. split; [now apply server_post|].
  subst r. unfold Spec.mirror_response, mirror. cbn [Mirror.args].
  unfold JsObject.fromEntries. split.
  - apply NoDup_define_entries. constructor.
  - intros key. split.
    + rewrite get_define_entries. now destruct (Spec.last_value key (searchParams u)).
    + rewrite keys_define_entries. simpl. intuition.
Qed.

End ArgsFacts.

Lemma args_last_value_wins_witness :
  let req := Example.request "POST" "/post?size=small&topping=bacon&size=large" [] "" in
  let u := mkURL "http://localhost:3000/post?size=small&topping=bacon&size=large" "/post"
                 [("size", "small"); ("topping", "bacon"); ("size", "large")] in
  let r := Spec.mirror_response Example.node req u in
  Spec.post_request Example.node req u
  /\ NoDup (JsObject.keys (Mirror.args r))
  /\ JsObject.get (Mirror.args r) "size" = Some "large"
  /\ JsObject.get (Mirror.args r) "topping" = Some "bacon"
  /\ Mirror.args r = [("size", "large"); ("topping", "bacon")].
Proof.
  intros req u r.
  assert (Hreq : Spec.post_request Example.node req u) by (repeat split).
  destruct (args_last_value_wins Example.node req u Hreq) as (_ & Hnd & Hget).
  split; [exact Hreq|]. split; [exact Hnd|].
  split; [exact (proj1 (Hget "size"))|].
  split; [exact (proj1 (Hget "topping")) | reflexivity].
Defined.

(* ================================================================= *)
(** ** [headers] and [form]: objects filled by assignment *)

Section AssignFacts.
Variable rename : string -> string.

(** The loop body shared by [parseHeaders] and [parseForm]. *)
Local Abbreviation step :=
  (fun (result : JsObject.t (list string)) (kv : string * option StrOrArr) =>
     match snd kv with
     | Some value => JsObject.assign result (rename (fst kv)) (as_array value)
     | None => result
     end).

Lemma get_assign_other (o : JsObject.t (list string)) (k key : string) (v : list string) :
  k <> key -> JsObject.get (JsObject.assign o k v) key = JsObject.get o key.
Proof.
  intros Hne. unfold JsObject.assign.
  destruct (k =? "__proto__")%string; [reflexivity | now apply get_define_other].
Qed.

Lemma get_assign_same (o : JsObject.t (list string)) (k : string) (v : list string) :
  k <> "__proto__" -> JsObject.get (JsObject.assign o k v) k = Some v.
Proof.
  intros Hne. unfold JsObject.assign. apply String.eqb_neq in Hne. rewrite Hne.
  apply get_define_same.
Qed.

(** An assignment to [__proto__] stores nothing. *)
Lemma get_assign_proto (o : JsObject.t (list string)) (k : string) (v : list string) :
  JsObject.get (JsObject.assign o k v) "__proto__" = JsObject.get o "__proto__".
Proof.
  unfold JsObject.assign. destruct (k =? "__proto__")%string eqn:E; [reflexivity|].
  apply String.eqb_neq in E. now apply get_define_other.
Qed.

Lemma fold_assign_untouched (l : Dict) (acc : JsObject.t (list string)) (key : string) :
  (forall name value, In (name, Some value) l -> rename name <> key) ->
  JsObject.get (fold_left step l acc) key = JsObject.get acc key.
Proof.
  revert acc. induction l as [|[k v] l IH]; intros acc Hne; simpl; [reflexivity|].
  rewrite IH by (intros name value Hin; apply (Hne name value); now right).
  destruct v as [value|]; [|reflexivity].
  apply get_assign_other. apply (Hne k value). now left.
Qed.

Lemma fold_assign_proto (l : Dict) (acc : JsObject.t (list string)) :
  JsObject.get (fold_left step l acc) "__proto__" = JsObject.get acc "__proto__".
Proof.
  revert acc. induction l as [|[k v] l IH]; intros acc; simpl; [reflexivity|].
  rewrite IH. destruct v as [value|]; [apply get_assign_proto | reflexivity].
Qed.

Lemma fold_assign_get (l : Dict) (acc : JsObject.t (list string)) (name : string)
      (value : StrOrArr) :
  NoDup (map rename (JsObject.keys l)) ->
  In (name, Some value) l ->
  rename name <> "__proto__" ->
  JsObject.get (fold_left step l acc) (rename name) = Some (as_array value).
Proof.
  revert acc. induction l as [|[k v] l IH]; intros acc Hnd Hin Hproto; [destruct Hin|].
  simpl in Hnd. inversion Hnd as [|? ? Hnotin Hnd']; subst.
  destruct Hin as [Heq|Hin].
  - inversion Heq; subst. simpl.
    rewrite fold_assign_untouched.
    + now apply get_assign_same.
    + intros name' value' Hin' Heq'. apply Hnotin. rewrite <- Heq'.
      apply in_map. change name' with (fst (name', Some value')). now apply in_map.
  - simpl. now apply IH.
Qed.

Lemma fold_assign_keys (l : Dict) (acc : JsObject.t (list string)) (key : string) :
  In key (JsObject.keys (fold_left step l acc)) ->
  In key (JsObject.keys acc)
  \/ exists name value, In (name, Some value) l /\ rename name = key.
Proof.
  revert acc. induction l as [|[k v] l IH]; intros acc Hin; simpl in Hin; [now left|].
  destruct (IH _ Hin) as [Hacc|(name & value & Hl & Hr)].
  - destruct v as [value|]; [|now left].
    unfold JsObject.assign in Hacc. cbn [fst snd] in Hacc.
    destruct (rename k =? "__proto__")%string; [now left|].
    apply in_keys_define in Hacc. destruct Hacc as [->|Hacc]; [|now left].
    right. exists k, value. split; [now left | reflexivity].
  - right. exists name, value. split; [now right | exact Hr].
Qed.

End AssignFacts.

(* ================================================================= *)
(** ** [headers]: capitalised names *)

Section HeaderFacts.

Lemma nat_of_ascii_lt (c : ascii) : nat_of_ascii c < 256.
Proof. apply nat_ascii_bounded. Qed.

Lemma capitalizedKey_is_capitalized (key : string) :
  (JsString.toUpperCase (JsString.charAt key 0) ++ JsString.slice key 1)%string
  = Spec.capitalized key.
Proof. destruct key; reflexivity. Qed.

Lemma lower_fixed_not_upper (c : ascii) :
  JsString.lower_ascii c = c -> JsString.is_upper_letter c = false.
Proof.
  unfold JsString.lower_ascii. destruct (JsString.is_upper_letter c) eqn:E; [|reflexivity].
  intros H. apply (f_equal nat_of_ascii) in H.
  unfold JsString.is_upper_letter in E. apply andb_true_iff in E.
  destruct E as [E1%Nat.leb_le E2%Nat.leb_le].
  rewrite nat_ascii_embedding in H by lia. lia.
Qed.

Lemma upper_ascii_inj_on_lower (c1 c2 : ascii) :
  JsString.lower_ascii c1 = c1 -> JsString.lower_ascii c2 = c2 ->
  JsString.upper_ascii c1 = JsString.upper_ascii c2 -> c1 = c2.
Proof.
  intros H1 H2. apply lower_fixed_not_upper in H1, H2.
  unfold JsString.upper_ascii, JsString.is_upper_letter, JsString.is_lower_letter in *.
  pose proof (nat_of_ascii_lt c1) as B1. pose proof (nat_of_ascii_lt c2) as B2.
  destruct ((97 <=? nat_of_ascii c1)%nat && (nat_of_ascii c1 <=? 122)%nat) eqn:E1;
    destruct ((97 <=? nat_of_ascii c2)%nat && (nat_of_ascii c2 <=? 122)%nat) eqn:E2;
    intros H; try exact H;
    repeat match goal with
           | E : (_ && _) = true |- _ =>
               apply andb_true_iff in E; destruct E as [?%Nat.leb_le ?%Nat.leb_le]
           end;
    apply (f_equal nat_of_ascii) in H;
    rewrite ?nat_ascii_embedding in H by lia.
  - rewrite <- (ascii_nat_embedding c1), <- (ascii_nat_embedding c2). f_equal. lia.
  - exfalso. rewrite <- H in H2. apply andb_false_iff in H2.
    destruct H2 as [H2|H2]; apply Nat.leb_gt in H2; lia.
  - exfalso. rewrite H in H1. apply andb_false_iff in H1.
    destruct H1 as [H1|H1]; apply Nat.leb_gt in H1; lia.
Qed.

Lemma capitalized_inj_on_lower (n1 n2 : string) :
  JsString.toLowerCase n1 = n1 -> JsString.toLowerCase n2 = n2 ->
  Spec.capitalized n1 = Spec.capitalized n2 -> n1 = n2.
Proof.
  destruct n1 as [|c1 r1], n2 as [|c2 r2]; simpl; intros H1 H2 H;
    try reflexivity; try discriminate.
  inversion H1. inversion H2. inversion H; subst.
  f_equal. apply upper_ascii_inj_on_lower; congruence.
Qed.

Lemma capitalized_proto (name : string) :
  Spec.capitalized name = "__proto__" -> name = "__proto__".
Proof.
  destruct name as [|c rest]; simpl; [discriminate|].
  intros H. injection H as Hc Hrest. subst rest. f_equal.
  unfold JsString.upper_ascii, JsString.is_lower_letter in Hc.
  destruct ((97 <=? nat_of_ascii c)%nat && (nat_of_ascii c <=? 122)%nat) eqn:E;
    [|exact Hc].
  exfalso. apply andb_true_iff in E. destruct E as [E1%Nat.leb_le E2%Nat.leb_le].
  apply (f_equal nat_of_ascii) in Hc.
  rewrite nat_ascii_embedding in Hc by lia.
  change (nat_of_ascii "_") with 95 in Hc. lia.
Qed.

Lemma NoDup_capitalized (names : list string) :
  NoDup names ->
  Forall (fun name => JsString.toLowerCase name = name /\ name <> "__proto__") names ->
  NoDup (map Spec.capitalized names).
Proof.
  induction names as [|n names IH]; simpl; intros Hnd Hall; [constructor|].
  inversion Hnd as [|? ? Hnotin Hnd']; subst. inversion Hall as [|? ? [Hn _] Hall']; subst.
  constructor; [|now apply IH].
  intros Hin. apply in_map_iff in Hin. destruct Hin as (n' & Heq & Hin').
  rewrite Forall_forall in Hall'. destruct (Hall' n' Hin') as [Hn' _].
  apply capitalized_inj_on_lower in Heq; auto. now subst.
Qed.

Lemma parseHeaders_fold (P : Platform) (headers : Dict) :
  parseHeaders headers
  = fold_left
      (fun (result : JsObject.t (list string)) (kv : string * option StrOrArr) =>
         match snd kv with
         | Some value => JsObject.assign result (Spec.capitalized (fst kv)) (as_array value)
         | None => result
         end)
      headers JsObject.empty.
Proof.
  unfold parseHeaders, JsObject.entries. generalize (@JsObject.empty (list string)).
  induction headers as [|[k v] headers IH]; intros acc; simpl; [reflexivity|].
  rewrite IH. destruct v; [|reflexivity]. now rewrite capitalizedKey_is_capitalized.
Qed.

(** C5.  For a POST /post request with headers as Node.js hands them
    over: every header is found in [headers] under its name with the first
    character in upper case and the rest unchanged; its value there is the
    list of the header's values, in their order, a list of one for a
    single-valued header; and [headers] has no key that is not the
    capitalised name of a request header. *)
Theorem headers_capitalized_with_lists (P : Platform) (req : IncomingMessage) (u : URL) :
  Spec.post_request P req u ->
  Spec.node_headers (req_headers req) ->
  let r := Spec.mirror_response P req u in
  Spec.sends_mirror P req r
  /\ (forall name value,
        In (name, Some value) (req_headers req) ->
        JsObject.get (Mirror.headers r) (Spec.capitalized name)
        = Some (Spec.header_values value))
  /\ (forall key,
        In key (JsObject.keys (Mirror.headers r)) ->
        exists name value,
          In (name, Some value) (req_headers req) /\ key = Spec.capitalized name).
Proof.
  intros Hreq [Hnd Hall] r. split; [now apply server_post|].
  subst r. unfold Spec.mirror_response, mirror. cbn [Mirror.headers].
  rewrite (parseHeaders_fold P). split.
  - intros name value Hin.
    apply (fold_assign_get Spec.capitalized); [now apply NoDup_capitalized | exact Hin |].
    intros Hp. apply capitalized_proto in Hp.
    rewrite Forall_forall in Hall.
    destruct (Hall name) as [_ Hne]; [|contradiction].
    change name with (fst (name, Some value)). now apply in_map.
  - intros key Hin.
    apply (fold_assign_keys Spec.capitalized) in Hin.
    destruct Hin as [[]|(name & value & Hl & Hr)].
    exists name, value. split; [exact Hl | now symmetry].
Qed.

End HeaderFacts.

Lemma headers_capitalized_with_lists_witness :
  let req := mkReq (Some "/post") (Some "POST")
                   [("host", Some (Str "localhost:3000"));
                    ("content-type", Some (Str "text/plain"));
                    ("x-custom-header", Some (Str "test-value"));
                    ("set-cookie", Some (Arr ["a=1"; "b=2"]))]
                   (Some "::1") ["test=data"] in
  let u := mkURL "http://localhost:3000/post" "/post" [] in
  let r := Spec.mirror_response Example.node req u in
  Spec.post_request Example.node req u
  /\ Spec.node_headers (req_headers req)
  /\ JsObject.get (Mirror.headers r) "Content-type" = Some ["text/plain"]
  /\ JsObject.get (Mirror.headers r) "X-custom-header" = Some ["test-value"]
  /\ JsObject.get (Mirror.headers r) "Set-cookie" = Some ["a=1"; "b=2"].
Proof.
  intros req u r.
  assert (Hreq : Spec.post_request Example.node req u) by (repeat split).
  assert (Hwf : Spec.node_headers (req_headers req)).
  { split.
    - repeat constructor; simpl; intuition discriminate.
    - repeat constructor; discriminate. }
  destruct (headers_capitalized_with_lists Example.node req u Hreq Hwf) as (_ & Hget & _).
  split; [exact Hreq|]. split; [exact Hwf|].
  split; [|split].
  - apply (Hget "content-type" (Str "text/plain")). simpl. tauto.
  - apply (Hget "x-custom-header" (Str "test-value")). simpl. tauto.
  - apply (Hget "set-cookie" (Arr ["a=1"; "b=2"])). simpl. tauto.
Defined.

(* ================================================================= *)
(** ** [form]: the values of a key, in order *)

Section FormFacts.
Variable P : Platform.

Local Abbreviation unescape := (querystring_unescape P).

Lemma values_of_app (key : string) (a b : list (string * string)) :
  Spec.values_of key (a ++ b) = Spec.values_of key a ++ Spec.values_of key b.
Proof. unfold Spec.values_of. now rewrite filter_app, map_app. Qed.

Lemma values_of_one (key k v : string) :
  Spec.values_of key [(k, v)] = if (k =? key)%string then [v] else [].
Proof. unfold Spec.values_of. simpl. now destruct (k =? key)%string. Qed.

Lemma held_snoc (values : list string) (v : string) :
  Spec.held (values ++ [v])
  = Some (Some match values with
               | [] => Str v
               | _ => Arr (values ++ [v])
               end).
Proof. destruct values as [|a [|b values]]; reflexivity. Qed.

(** One [addKeyValue] records one more pair. *)
Lemma addKeyValue_holds (obj : Dict) (read : list (string * string)) (k v : string) :
  Spec.holds obj read ->
  Spec.holds (querystring.addKeyValue obj k v) (read ++ [(k, v)]).
Proof.
  intros H key. rewrite values_of_app, values_of_one.
  unfold querystring.addKeyValue, dict_get. rewrite (H k).
  destruct (k =? key)%string eqn:E.
  - apply String.eqb_eq in E. subst key. rewrite held_snoc.
    destruct (Spec.values_of k read) as [|a [|b values]]; cbn -[JsObject.define];
      apply get_define_same.
  - rewrite app_nil_r. apply String.eqb_neq in E.
    destruct (Spec.values_of k read) as [|a [|b values]]; cbn -[JsObject.define];
      rewrite get_define_other by exact E; apply H.
Qed.

Lemma addKeyValue_NoDup (obj : Dict) (k v : string) :
  NoDup (JsObject.keys obj) -> NoDup (JsObject.keys (querystring.addKeyValue obj k v)).
Proof.
  intros H. unfold querystring.addKeyValue.
  destruct (dict_get obj k) as [[s|l]|]; now apply NoDup_keys_define.
Qed.

Lemma fold_addKeyValue (ps read : list (string * string)) (obj : Dict) :
  Spec.holds obj read -> NoDup (JsObject.keys obj) ->
  let obj' := fold_left (fun obj kv => querystring.addKeyValue obj (fst kv) (snd kv)) ps obj in
  Spec.holds obj' (read ++ ps) /\ NoDup (JsObject.keys obj').
Proof.
  revert read obj. induction ps as [|[k v] ps IH]; intros read obj H Hnd; simpl.
  - now rewrite app_nil_r.
  - replace (read ++ (k, v) :: ps) with ((read ++ [(k, v)]) ++ ps)
      by (rewrite <- app_assoc; reflexivity).
    apply IH; [now apply addKeyValue_holds | now apply addKeyValue_NoDup].
Qed.

(** What [querystring.parse] returns holds the pairs it read. *)
Lemma parse_holds (qs : string) :
  Spec.holds (querystring.parse unescape qs) (querystring.pairs unescape qs)
  /\ NoDup (JsObject.keys (querystring.parse unescape qs)).
Proof.
  unfold querystring.parse.
  apply (fold_addKeyValue (querystring.pairs unescape qs) [] JsObject.empty).
  - intros key. reflexivity.
  - constructor.
Qed.

Lemma pairs_within_limit (qs : string) :
  length (querystring.split "&" qs) <= querystring.maxKeys ->
  querystring.pairs unescape qs = Spec.submitted unescape qs.
Proof.
  intros H. unfold querystring.pairs, Spec.submitted. now rewrite firstn_all2.
Qed.

Lemma as_array_held (values : list string) (value : StrOrArr) :
  Spec.held values = Some (Some value) -> as_array value = values.
Proof.
  destruct values as [|a [|b values]]; simpl; intros H; inversion H; reflexivity.
Qed.

(** [parseForm] lists, for every key but [__proto__], the values that
    [querystring.parse] read for it. *)
Lemma parseForm_get (body key : string) :
  key <> "__proto__" ->
  JsObject.get (parseForm P body) key
  = match Spec.values_of key (querystring.pairs unescape body) with
    | [] => None
    | values => Some values
    end.
Proof.
  intros Hproto. unfold parseForm, JsObject.entries.
  destruct (parse_holds body) as [Hholds Hnd].
  pose proof (Hholds key) as Hkey.
  destruct (Spec.values_of key (querystring.pairs unescape body)) as [|a values] eqn:E.
  - rewrite (fold_assign_untouched (fun k => k)); [reflexivity|].
    intros name value Hin ->. simpl in Hkey.
    apply get_none_not_in_keys in Hkey. apply Hkey.
    change key with (fst (key, Some value)). now apply in_map.
  - assert (Hsome : exists value,
               JsObject.get (querystring.parse unescape body) key = Some (Some value)
               /\ as_array value = a :: values).
    { destruct values as [|b values]; simpl in Hkey; eexists; (split; [exact Hkey|]);
        reflexivity. }
    destruct Hsome as (value & Hget & Harr).
    rewrite <- Harr.
    apply (fold_assign_get (fun k => k)); [| now apply in_of_get | exact Hproto].
    now rewrite map_id.
Qed.

(** C3, as amended.  For a POST /post request whose Content-Type contains
    [application/x-www-form-urlencoded] and not [application/json], and
    whose body has at most 1000 pieces between ampersands: [json] is null,
    and [form] maps every submitted key other than [__proto__] to the list
    of all its values in submission order (and holds no such key that was
    not submitted); for the body
    [custname=John+Doe&topping=bacon&topping=cheese], [form.custname] is
    [["John Doe"]] and [form.topping] is [["bacon", "cheese"]]. *)
Theorem form_lists_all_values (req : IncomingMessage) (u : URL) (ct : string) :
  Spec.post_request P req u ->
  dict_get (req_headers req) "content-type" = Some (Str ct) ->
  JsString.includes ct "application/x-www-form-urlencoded" = true ->
  JsString.includes ct "application/json" = false ->
  length (querystring.split "&" (buffered_body req)) <= querystring.maxKeys ->
  let r := Spec.mirror_response P req u in
  Spec.sends_mirror P req r
  /\ Mirror.json r = JNull
  /\ (forall key, key <> "__proto__" -> Spec.form_lists_values P req u key)
  /\ (buffered_body req = "custname=John+Doe&topping=bacon&topping=cheese" ->
      JsObject.get (Mirror.form r) "custname" = Some ["John Doe"]
      /\ JsObject.get (Mirror.form r) "topping" = Some ["bacon"; "cheese"]).
Proof.
  intros Hreq Hct Hform Hjson Hlen r. split; [now apply server_post|].
  assert (Hr : Mirror.json r = JNull
               /\ Mirror.form r = parseForm P (buffered_body req)).
  { subst r. unfold Spec.mirror_response, mirror, json_and_form.
    cbn [Mirror.json Mirror.form]. rewrite (contentType_of_string _ _ Hct).
    cbn [ct_includes]. rewrite Hjson, Hform. split; reflexivity. }
  destruct Hr as [Hj Hf]. split; [exact Hj|]. split.
  - intros key Hproto. unfold Spec.form_lists_values. fold r. rewrite Hf.
    rewrite <- (pairs_within_limit _ Hlen). now apply parseForm_get.
  - intros Hbody. rewrite Hf, Hbody. split; reflexivity.
Qed.

End FormFacts.

(** The form request of the specification. *)
Lemma form_lists_all_values_witness :
  let req := Example.request "POST" "/post"
                             [("content-type", "application/x-www-form-urlencoded")]
                             "custname=John+Doe&topping=bacon&topping=cheese" in
  let u := mkURL "http://localhost:3000/post" "/post" [] in
  let r := Spec.mirror_response Example.node req u in
  Spec.post_request Example.node req u
  /\ Mirror.json r = JNull
  /\ Spec.form_lists_values Example.node req u "topping"
  /\ JsObject.get (Mirror.form r) "custname" = Some ["John Doe"]
  /\ JsObject.get (Mirror.form r) "topping" = Some ["bacon"; "cheese"].
Proof.
  intros req u r.
  assert (Hreq : Spec.post_request Example.node req u) by (repeat split).
  assert (Hlen : length (querystring.split "&" (buffered_body req)) <= querystring.maxKeys)
    by (apply Nat.leb_le; reflexivity).
  destruct (form_lists_all_values Example.node req u "application/x-www-form-urlencoded"
              Hreq eq_refl eq_refl eq_refl Hlen)
    as (_ & Hjson & Hkeys & Hexample).
  split; [exact Hreq|]. split; [exact Hjson|].
  split; [apply Hkeys; discriminate|].
  exact (Hexample eq_refl).
Defined.

(** C3 as stated fails on three requests whose Content-Type contains
    [application/x-www-form-urlencoded]: one whose Content-Type also contains
    [application/json], whose [form] stays empty; one that submits the key
    [__proto__], which [form] does not hold; one with 1001 fields, the last
    of which [form] does not hold. *)
Lemma form_lists_values_fails :
  let u := mkURL "http://localhost:3000/post" "/post" [] in
  let both := Example.request
                "POST" "/post"
                [("content-type", "application/json, application/x-www-form-urlencoded")]
                "topping=bacon" in
  let form_type := [("content-type", "application/x-www-form-urlencoded")] in
  let proto := Example.request "POST" "/post" form_type "__proto__=x" in
  let many := Example.request "POST" "/post" form_type Example.many_fields in
  (Spec.post_request Example.node both u
   /\ Spec.content_type_contains both "application/x-www-form-urlencoded"
   /\ ~ Spec.form_lists_values Example.node both u "topping")
  /\ (Spec.post_request Example.node proto u
      /\ Spec.content_type_contains proto "application/x-www-form-urlencoded"
      /\ ~ Spec.form_lists_values Example.node proto u "__proto__")
  /\ (Spec.post_request Example.node many u
      /\ Spec.content_type_contains many "application/x-www-form-urlencoded"
      /\ ~ Spec.form_lists_values Example.node many u "b").
Proof.
  intros u both form_type proto many.
  split; [|split]; (split; [repeat split|]); (split; [eexists; split; reflexivity|]);
    unfold Spec.form_lists_values; vm_compute; discriminate.
Qed.

(* ================================================================= *)
(** ** The [Navigate to <url>] step *)

Section StepFacts.
Import FormSubmissionTest.

Lemma prefix_app (p s : string) : String.prefix p (p ++ s) = true.
Proof.
  induction p as [|c p IH]; simpl.
  - now destruct s.
  - destruct (ascii_dec c c) as [_|Hne]; [exact IH | now elim Hne].
Qed.

Lemma includes_of_prefix (s needle : string) :
  String.prefix needle s = true -> JsString.includes s needle = true.
Proof. intros H. destruct s; cbn [JsString.includes]; now rewrite H. Qed.

Lemma includes_app (before s after : string) :
  JsString.includes (before ++ s ++ after) s = true.
Proof.
  induction before as [|c before IH].
  - change ("" ++ s ++ after)%string with (s ++ after)%string.
    apply includes_of_prefix, prefix_app.
  - change (String c before ++ s ++ after)%string
      with (String c (before ++ s ++ after)).
    cbn [JsString.includes]. rewrite IH.
    now destruct (String.prefix s (String c (before ++ s ++ after))).
Qed.

Lemma startsWith_env (name : string) : JsString.startsWith ("env:" ++ name) "env" = true.
Proof.
  unfold JsString.startsWith.
  change ("env:" ++ name)%string with ("env" ++ String ":" name)%string.
  apply prefix_app.
Qed.

Lemma replace_env (name : string) : JsString.replace ("env:" ++ name) "env:" "" = name.
Proof.
  change (JsString.replace ("env:" ++ name) "env:" "")
    with (if String.prefix "env:" ("env:" ++ name)
          then ("" ++ JsString.slice ("env:" ++ name) 4)%string
          else String "e" (JsString.replace ("nv:" ++ name) "env:" "")).
  rewrite prefix_app. reflexivity.
Qed.

(** C8.  When the URL given to [Navigate to <url>] is [env:NAME] and
    [process.env] has no [NAME], the step throws an error and has made no
    call on the page (no [goto], no [waitForLoadState]); in a scenario,
    where the [BeforeScenario] hook has set the page, the message of the
    error is [Environment variable for URL 'env:NAME' is not set.], which
    names the variable. *)
Theorem unset_env_url_fails_fast (this : t) (env : string -> option string) (name : string) :
  env name = None ->
  let run := navigateToUrl this env ("env:" ++ name) in
  calls run = []
  /\ (exists e, completion run = Throw e)
  /\ (forall pg, page this = Some pg ->
      exists message,
        completion run = Throw (Error message)
        /\ message = ("Environment variable for URL 'env:" ++ name ++ "' is not set.")%string
        /\ JsString.includes message name = true).
Proof.
  intros Henv run. subst run. unfold navigateToUrl.
  rewrite startsWith_env, replace_env, Henv.
  destruct (page this) as [pg|]; cbn [calls completion].
  - split; [reflexivity|]. split; [eexists; reflexivity|].
    intros _ _. eexists. split; [reflexivity|]. split; [reflexivity|].
    apply (includes_app "Environment variable for URL 'env:" name "' is not set.").
  - split; [reflexivity|]. split; [eexists; reflexivity|].
    intros pg Hpg. discriminate Hpg.
Qed.

End StepFacts.

(** The step of the repository's specification, [Navigate to
    "env:HTTPBIN_FORM_URL"], with the variable unset. *)
Lemma unset_env_url_fails_fast_witness :
  let this := FormSubmissionTest.setupBrowser FormSubmissionTest.new in
  let run := FormSubmissionTest.navigateToUrl this (fun _ => None) "env:HTTPBIN_FORM_URL" in
  FormSubmissionTest.calls run = []
  /\ FormSubmissionTest.completion run
     = Throw (Error "Environment variable for URL 'env:HTTPBIN_FORM_URL' is not set.").
Proof.
  intros this run.
  destruct (unset_env_url_fails_fast this (fun _ => None) "HTTPBIN_FORM_URL" eq_refl)
    as (Hcalls & _ & Hmessage).
  destruct (Hmessage FormSubmissionTest.a_page eq_refl) as (message & Hthrow & Hm & _).
  split; [exact Hcalls|].
  subst message. exact Hthrow.
Defined.

(* ================================================================= *)
(** ** More on the router and the routes *)

Section ServerFacts.
Variable P : Platform.

Lemma dispatch_POST (req : IncomingMessage) (route : Route) :
  req_method req = Some "POST" ->
  Spec.dispatch req route = handler route req (Some (buffered_body req)).
Proof. intros H. unfold Spec.dispatch. now rewrite H. Qed.

Lemma dispatch_other (req : IncomingMessage) (route : Route) :
  req_method req <> Some "POST" ->
  Spec.dispatch req route = handler route req None.
Proof.
  intros H. unfold Spec.dispatch. destruct (req_method req) as [m|]; [|reflexivity].
  repeat match goal with
         | |- context [match ?x with _ => _ end] => destruct x; try reflexivity
         end.
  now elim H.
Qed.

Lemma handle_found (routes : list Route) (req : IncomingMessage) (u : URL) (route : Route) :
  request_URL P req = Normal u ->
  find (route_matches (req_method req) (pathname u)) routes = Some route ->
  Router_handle P routes req = Spec.dispatch req route.
Proof. intros Hu Hf. unfold Router_handle. rewrite Hu. cbn [bind]. now rewrite Hf. Qed.

Lemma handle_not_found (routes : list Route) (req : IncomingMessage) (u : URL) :
  request_URL P req = Normal u ->
  find (route_matches (req_method req) (pathname u)) routes = None ->
  Router_handle P routes req = Normal Http.not_found.
Proof. intros Hu Hf. unfold Router_handle. rewrite Hu. cbn [bind]. now rewrite Hf. Qed.

Lemma find_app_routes (f : Route -> bool) (l1 l2 : list Route) :
  find f (l1 ++ l2) = match find f l1 with
                      | Some r => Some r
                      | None => find f l2
                      end.
Proof. induction l1 as [|a l1 IH]; simpl; [reflexivity|]. now destruct (f a). Qed.

Lemma in_router_routes (r : Route) :
  In r (router_routes P) ->
  r = mkRoute "GET" "/forms/post" (forms_post_handler P)
  \/ r = mkRoute "POST" "/post" (post_handler P)
  \/ r = mkRoute "GET" "/health" (health_handler P)
  \/ r = mkRoute "GET" "/" root_handler.
Proof.
  intros Hin. repeat (destruct Hin as [<-|Hin]; [tauto|]). destruct Hin.
Qed.

Lemma server_root (req : IncomingMessage) :
  Http.request_for P req "GET" "/" -> server P req = root_handler req None.
Proof.
  intros (u & Hu & Hm & Hp). unfold server, Router_handle.
  rewrite Hu. cbn [bind]. rewrite Hm, Hp. reflexivity.
Qed.

Lemma server_health (req : IncomingMessage) :
  Http.request_for P req "GET" "/health" -> server P req = health_handler P req None.
Proof.
  intros (u & Hu & Hm & Hp). unfold server, Router_handle.
  rewrite Hu. cbn [bind]. rewrite Hm, Hp. reflexivity.
Qed.

(** Every handler of the server answers, with 200 or 404, a request whose
    URL parses. *)
Lemma handlers_answer (req : IncomingMessage) (u : URL) (body : option string) (r : Route) :
  request_URL P req = Normal u ->
  In r (router_routes P) ->
  exists calls response,
    handler r req body = Normal calls
    /\ sent calls = Some response
    /\ (statusCode response = 200 \/ statusCode response = 404).
Proof.
  intros Hu Hin. apply in_router_routes in Hin.
  destruct Hin as [-> | [-> | [-> | ->]]]; cbn [handler].
  - unfold forms_post_handler.
    destruct (fs_readFile P (path_join ["server"; "public"; "form.html"]));
      eexists; eexists; (split; [reflexivity|]); cbn; auto.
  - unfold post_handler. rewrite Hu. cbn [bind].
    eexists; eexists; (split; [reflexivity|]); cbn; auto.
  - eexists; eexists; (split; [reflexivity|]); cbn; auto.
  - eexists; eexists; (split; [reflexivity|]); cbn; auto.
Qed.

(** X1.  The server throws exactly when the URL of the request does not
    parse, and then it throws that error without a call on the response.  A
    POST of [/post] whose body has not ended is left without an answer: no
    call is made on the response while [end] has not fired.  Every other
    request whose URL parses (a POST of [/post] once its body has ended, a
    request for another route whatever its body does) gets a response that is
    ended, with status 200 or 404. *)
Theorem server_answers_once_body_ends
        (toString : string -> string) (req : IncomingMessage)
        (events : list Stream.BodyEvent) :
  match request_URL P req with
  | Throw e => Stream.server toString P req events = Throw e
  | Normal u =>
      (req_method req = Some "POST" -> pathname u = "/post" ->
       Stream.body_at_end toString events "" = None ->
       Stream.server toString P req events = Normal None)
      /\ (req_method req <> Some "POST" \/ pathname u <> "/post"
          \/ Stream.body_at_end toString events "" <> None ->
          exists calls response,
            Stream.server toString P req events = Normal (Some calls)
            /\ sent calls = Some response
            /\ (statusCode response = 200 \/ statusCode response = 404))
  end.
Proof.
  destruct (request_URL P req) as [u|e] eqn:Hu;
    unfold Stream.server, Stream.handle; rewrite Hu; cbn [bind]; [|reflexivity].
  assert (Hanswer : forall r body,
             In r (router_routes P) ->
             exists calls response,
               Stream.answered (handler r req body) = Normal (Some calls)
               /\ sent calls = Some response
               /\ (statusCode response = 200 \/ statusCode response = 404)).
  { intros r body Hin.
    destruct (handlers_answer req u body r Hu Hin) as (calls & response & Hh & Hs & Hc).
    exists calls, response. unfold Stream.answered. rewrite Hh. auto. }
  destruct (find (route_matches (req_method req) (pathname u)) (router_routes P))
    as [route|] eqn:Hf.
  - apply find_some in Hf. destruct Hf as [Hin Hmatch].
    apply route_matches_iff in Hmatch. destruct Hmatch as [Hm Hp].
    pose proof (Hanswer route) as Hroute.
    apply in_router_routes in Hin.
    destruct Hin as [-> | [-> | [-> | ->]]]; cbn [method path handler] in *;
      rewrite Hm; cbn match; split;
      try (intros H; discriminate H);
      try (intros _; apply Hroute; simpl; tauto).
    + intros _ _ Hb. now rewrite Hb.
    + intros [H|[H|H]]; [now elim H | now elim H |].
      destruct (Stream.body_at_end toString events "") as [body|]; [|now elim H].
      apply Hroute. simpl. tauto.
  - split.
    + intros Hm Hp _. exfalso.
      apply (proj1 (find_none_iff _ _ _) Hf (mkRoute "POST" "/post" (post_handler P)));
        [simpl; tauto | split; [exact Hm | now rewrite Hp]].
    + intros _. eexists. eexists. split; [reflexivity|]. cbn. auto.
Qed.

(** X2.  The routes of the server are four: a request whose URL parses gets
    the router's 404 exactly when it is not a GET of [/forms/post],
    [/health] or [/], nor a POST of [/post]; the method and the path are
    compared as they are, so a GET of [/post] or a POST of [/] is not
    routed. *)
Theorem routed_iff_registered (req : IncomingMessage) (u : URL) :
  request_URL P req = Normal u ->
  (server P req = Normal Http.not_found
   <-> ~ Http.registered (req_method req) (pathname u)).
Proof.
  intros Hu. split.
  - intros Hs [[Hm Hp]|[Hm Hp]].
    + assert (Hreq : forall p, pathname u = p -> Http.request_for P req "GET" p)
        by (intros p Hp'; exists u; auto).
      destruct Hp as [Hp|[Hp|Hp]].
      * rewrite (server_forms_post P req u) in Hs by (repeat split; auto).
        unfold forms_post_handler in Hs.
        destruct (fs_readFile P (path_join ["server"; "public"; "form.html"]));
          discriminate Hs.
      * rewrite (server_health req (Hreq _ Hp)) in Hs. discriminate Hs.
      * rewrite (server_root req (Hreq _ Hp)) in Hs. discriminate Hs.
    + assert (Hpost : Spec.post_request P req u) by (repeat split; auto).
      pose proof (server_post P req u Hpost) as Hm'. unfold Spec.sends_mirror in Hm'.
      rewrite Hm' in Hs. discriminate Hs.
  - intros Hno. unfold server. apply (handle_not_found _ _ u Hu).
    apply find_none_iff. intros r Hin [Hm Hp]. apply Hno.
    apply in_router_routes in Hin.
    destruct Hin as [-> | [-> | [-> | ->]]]; cbn in Hm, Hp; unfold Http.registered; auto.
Qed.

(** X3.  A GET of [/] is answered 200, [text/html], [Hello World!],
    whatever else the request holds; a GET of [/health] is answered 200,
    [application/json], with the four fields [status] (always [healthy]),
    [timestamp], [uptime] and [environment], and the environment is the
    variable [NODE_ENV], or [development] when it is unset or empty. *)
Theorem root_and_health_answers (req : IncomingMessage) :
  (Http.request_for P req "GET" "/" ->
   exists calls,
     server P req = Normal calls
     /\ sent calls
        = Some (mkSent 200 [("Content-Type", "text/html")] (Text "Hello World!")))
  /\ (Http.request_for P req "GET" "/health" ->
      exists calls environment,
        server P req = Normal calls
        /\ sent calls
           = Some (mkSent 200 [("Content-Type", "application/json")]
                          (JSON_stringify
                             (JObject [("status", JString "healthy");
                                       ("timestamp", JString (Date_now_toISOString P));
                                       ("uptime", JNumber (process_uptime P));
                                       ("environment", JString environment)]) 2))
        /\ environment <> ""
        /\ match process_env P "NODE_ENV" with
           | None | Some EmptyString => environment = "development"
           | Some value => environment = value
           end).
Proof.
  split; intros Hreq.
  - rewrite (server_root req Hreq). eexists. split; reflexivity.
  - rewrite (server_health req Hreq). unfold health_handler.
    eexists. exists (or_else (process_env P "NODE_ENV") "development").
    split; [reflexivity|]. split; [reflexivity|].
    destruct (process_env P "NODE_ENV") as [[|c v]|]; cbn; split;
      try reflexivity; discriminate.
Qed.

(** X4.  Whatever routes are registered, a request without a method
    matches none of them, and a router without routes matches no request:
    both get the 404. *)
Theorem no_method_or_no_routes_is_404 (routes : list Route) (req : IncomingMessage) (u : URL) :
  request_URL P req = Normal u ->
  req_method req = None \/ routes = [] ->
  Router_handle P routes req = Normal Http.not_found.
Proof.
  intros Hu H. apply (handle_not_found _ _ u Hu). apply find_none_iff.
  intros r Hin [Hm _]. destruct H as [H|H]; [congruence | subst routes; destruct Hin].
Qed.

(** X5.  The handler of the first route that matches a request is called
    with the buffered body when the method of the route is POST, and with no
    body otherwise: a handler registered with [post] always has a body, one
    registered with [get] never has. *)
Theorem body_goes_to_POST_routes
        (before after : list Route) (route : Route) (req : IncomingMessage) (u : URL) :
  request_URL P req = Normal u ->
  Spec.matches (req_method req) (pathname u) route ->
  (forall r, In r before -> ~ Spec.matches (req_method req) (pathname u) r) ->
  Router_handle P (before ++ route :: after) req
  = handler route req (if (method route =? "POST")%string
                       then Some (buffered_body req) else None).
Proof.
  intros Hu Hm Hb.
  rewrite (handle_found _ _ u route Hu (find_first _ _ before after route Hb Hm)).
  destruct Hm as [Hm _].
  destruct (String.eqb_spec (method route) "POST") as [E|E].
  - apply dispatch_POST. now rewrite Hm, E.
  - apply dispatch_other. rewrite Hm. intros H. inversion H. contradiction.
Qed.

(** X6.  Registering a route changes the handling of no request that a
    route already matches; a request that none matched and that the new
    route matches goes to the new handler. *)
Theorem registration_extends
        (routes : list Route) (p : string) (h : Handler) (req : IncomingMessage) (u : URL) :
  request_URL P req = Normal u ->
  ((exists r, In r routes /\ Spec.matches (req_method req) (pathname u) r) ->
   Router_handle P (Router_get routes p h) req = Router_handle P routes req
   /\ Router_handle P (Router_post routes p h) req = Router_handle P routes req)
  /\ ((forall r, In r routes -> ~ Spec.matches (req_method req) (pathname u) r) ->
      pathname u = p ->
      (req_method req = Some "GET" ->
       Router_handle P (Router_get routes p h) req = h req None)
      /\ (req_method req = Some "POST" ->
          Router_handle P (Router_post routes p h) req = h req (Some (buffered_body req)))).
Proof.
  intros Hu. split.
  - intros (r & Hin & Hm).
    assert (Hsome : exists r', find (route_matches (req_method req) (pathname u)) routes
                               = Some r').
    { destruct (find (route_matches (req_method req) (pathname u)) routes) as [r'|] eqn:Hf;
        [now exists r'|].
      exfalso. exact (proj1 (find_none_iff _ _ _) Hf r Hin Hm). }
    destruct Hsome as (r' & Hf).
    unfold Router_get, Router_post, push, Router_handle. rewrite Hu. cbn [bind].
    now rewrite !find_app_routes, Hf.
  - intros Hno Hp. apply find_none_iff in Hno.
    unfold Router_get, Router_post, push, Router_handle. rewrite Hu. cbn [bind].
    rewrite !find_app_routes, Hno. cbn [find route_matches path method].
    split; intros Hm; rewrite Hm, Hp; cbn; rewrite String.eqb_refl; reflexivity.
Qed.

End ServerFacts.

Lemma routed_iff_registered_witness :
  let u := mkURL "http://localhost:3000/post" "/post" [] in
  server Example.node (Example.request "GET" "/post" [] "") = Normal Http.not_found
  /\ server Example.node (Example.request "PUT" "/post" [] "") = Normal Http.not_found.
Proof.
  intros u. split.
  - apply (routed_iff_registered Example.node (Example.request "GET" "/post" [] "") u eq_refl).
    intros [[_ [H|[H|H]]]|[H _]]; discriminate H.
  - apply (routed_iff_registered Example.node (Example.request "PUT" "/post" [] "") u eq_refl).
    intros [[H _]|[H _]]; discriminate H.
Defined.

Lemma no_method_or_no_routes_is_404_witness :
  Router_handle Example.node [] (Example.request "GET" "/" [] "") = Normal Http.not_found
  /\ server Example.node (mkReq (Some "/") None [] None []) = Normal Http.not_found.
Proof.
  split.
  - apply (no_method_or_no_routes_is_404 Example.node [] (Example.request "GET" "/" [] "")
             (mkURL "http://localhost:3000/" "/" []) eq_refl).
    now right.
  - apply (no_method_or_no_routes_is_404 Example.node (router_routes Example.node)
             (mkReq (Some "/") None [] None [])
             (mkURL "http://undefined/" "/" []) eq_refl).
    now left.
Defined.

Lemma body_goes_to_POST_routes_witness :
  let echo : Handler :=
    fun _ body => Normal [end_ (Text (match body with Some b => b | None => "no body" end))] in
  Router_handle Example.node [mkRoute "GET" "/echo" echo; mkRoute "POST" "/echo" echo]
                (Example.request "POST" "/echo" [] "ping")
  = Normal [end_ (Text "ping")]
  /\ Router_handle Example.node [mkRoute "GET" "/echo" echo; mkRoute "POST" "/echo" echo]
                   (Example.request "GET" "/echo" [] "ping")
     = Normal [end_ (Text "no body")].
Proof.
  intros echo. split.
  - apply (body_goes_to_POST_routes Example.node [mkRoute "GET" "/echo" echo] []
             (mkRoute "POST" "/echo" echo) (Example.request "POST" "/echo" [] "ping")
             (mkURL "http://localhost:3000/echo" "/echo" []) eq_refl).
    + split; reflexivity.
    + intros r [<-|[]] [H _]. discriminate H.
  - apply (body_goes_to_POST_routes Example.node [] [mkRoute "POST" "/echo" echo]
             (mkRoute "GET" "/echo" echo) (Example.request "GET" "/echo" [] "ping")
             (mkURL "http://localhost:3000/echo" "/echo" []) eq_refl).
    + split; reflexivity.
    + intros r [].
Defined.

Lemma registration_extends_witness :
  let pong : Handler := fun _ _ => Normal [end_ (Text "pong")] in
  let routes := router_routes Example.node in
  Router_handle Example.node (Router_get routes "/" pong) (Example.request "GET" "/" [] "")
  = server Example.node (Example.request "GET" "/" [] "")
  /\ Router_handle Example.node (Router_get routes "/ping" pong)
                   (Example.request "GET" "/ping" [] "")
     = Normal [end_ (Text "pong")].
Proof.
  intros pong routes. split.
  - apply (proj1 (registration_extends Example.node routes "/" pong
                    (Example.request "GET" "/" [] "")
                    (mkURL "http://localhost:3000/" "/" []) eq_refl)).
    exists (mkRoute "GET" "/" root_handler). split; [|split; reflexivity].
    simpl. tauto.
  - apply (proj2 (registration_extends Example.node routes "/ping" pong
                    (Example.request "GET" "/ping" [] "")
                    (mkURL "http://localhost:3000/ping" "/ping" []) eq_refl)).
    + intros r Hin [_ Hp]. apply in_router_routes in Hin.
      destruct Hin as [-> | [-> | [-> | ->]]]; discriminate Hp.
    + reflexivity.
    + reflexivity.
Defined.

Lemma root_and_health_answers_witness :
  (exists calls,
      server Example.node (Example.request "GET" "/?lang=en" [] "") = Normal calls
      /\ sent calls = Some (mkSent 200 [("Content-Type", "text/html")] (Text "Hello World!")))
  /\ (exists calls environment,
         server Example.node (Example.request "GET" "/health" [] "") = Normal calls
         /\ environment = "development"
         /\ option_map statusCode (sent calls) = Some 200).
Proof.
  split.
  - apply (proj1 (root_and_health_answers Example.node
                    (Example.request "GET" "/?lang=en" [] ""))).
    exists (mkURL "http://localhost:3000/?lang=en" "/" [("lang", "en")]). repeat split.
  - destruct (proj2 (root_and_health_answers Example.node
                       (Example.request "GET" "/health" [] "")))
      as (calls & environment & Hs & Hsent & _ & Henv).
    + exists (mkURL "http://localhost:3000/health" "/health" []). repeat split.
    + exists calls, environment. split; [exact Hs|]. split; [exact Henv|].
      now rewrite Hsent.
Defined.

(** A POST of [/post] with one chunk and no [end] yet; the same once [end]
    has fired. *)
Lemma server_answers_once_body_ends_witness :
  let req := Example.request "POST" "/post" [] "" in
  Stream.server (fun bytes => bytes) Example.node req [Stream.data "a=1"] = Normal None
  /\ exists calls response,
      Stream.server (fun bytes => bytes) Example.node req
                    [Stream.data "a=1"; Stream.end_of_body]
      = Normal (Some calls)
      /\ sent calls = Some response
      /\ (statusCode response = 200 \/ statusCode response = 404).
Proof.
  intros req. split.
  - exact (proj1 (server_answers_once_body_ends Example.node (fun bytes => bytes) req
                    [Stream.data "a=1"]) eq_refl eq_refl eq_refl).
  - apply (proj2 (server_answers_once_body_ends Example.node (fun bytes => bytes) req
                    [Stream.data "a=1"; Stream.end_of_body])).
    right. right. discriminate.
Defined.

(* ================================================================= *)
(** ** The body, the mirror response and the port *)

Section BodyFacts.
Variable P : Platform.

Lemma append_nil_r (s : string) : (s ++ "")%string = s.
Proof. induction s as [|c s IH]; simpl; [reflexivity | now rewrite IH]. Qed.

Lemma append_assoc (a b c : string) : ((a ++ b) ++ c)%string = (a ++ b ++ c)%string.
Proof. induction a as [|x a IH]; simpl; [reflexivity | now rewrite IH]. Qed.

Lemma concat_cons (x : string) (xs : list string) :
  String.concat "" (x :: xs) = (x ++ String.concat "" xs)%string.
Proof. destruct xs; simpl; [now rewrite append_nil_r | reflexivity]. Qed.

Lemma fold_append (chunks : list string) (body : string) :
  fold_left (fun body chunk => (body ++ chunk)%string) chunks body
  = (body ++ String.concat "" chunks)%string.
Proof.
  revert body. induction chunks as [|c chunks IH]; intros body.
  - simpl. now rewrite append_nil_r.
  - cbn [fold_left]. rewrite IH, concat_cons. apply append_assoc.
Qed.

Lemma buffered_body_concat (req : IncomingMessage) :
  buffered_body req = String.concat "" (req_chunks req).
Proof. unfold buffered_body. now rewrite fold_append. Qed.

Lemma body_at_end_of_chunks (toString : string -> string) (chunks : list string)
      (later : list Stream.BodyEvent) (body : string) :
  Stream.body_at_end toString (map Stream.data chunks ++ Stream.end_of_body :: later) body
  = Some (body ++ String.concat "" (map toString chunks))%string.
Proof.
  revert body. induction chunks as [|c chunks IH]; intros body.
  - simpl. now rewrite append_nil_r.
  - cbn [map app Stream.body_at_end]. rewrite IH, concat_cons. cbn [map].
    now rewrite append_assoc.
Qed.

(** The server of the earlier sections is the server over the stream, for
    chunks given as their texts and a body that has ended. *)
Lemma stream_server_of_texts (req : IncomingMessage) :
  Stream.server (fun text => text) P req
                (map Stream.data (req_chunks req) ++ [Stream.end_of_body])
  = Stream.answered (server P req).
Proof.
  unfold Stream.server, Stream.handle, server, Router_handle, Router_handlePost.
  destruct (request_URL P req) as [u|e]; [cbn [bind]|reflexivity].
  rewrite body_at_end_of_chunks, map_id, buffered_body_concat.
  destruct (find (route_matches (req_method req) (pathname u)) (router_routes P));
    [|reflexivity].
  destruct (req_method req) as [m|]; [|reflexivity].
  repeat match goal with
         | |- context [match ?x with _ => _ end] => destruct x; try reflexivity
         end.
Qed.

(** X7.  The body handed to a POST handler is the concatenation, in the
    order of arrival, of the texts that [chunk.toString()] gives for the
    chunks received before [end], each chunk decoded on its own; what comes
    after [end] is not read.  The answer depends on the chunks through these
    texts only: two streams whose decoded chunks concatenate to the same
    text get the same answer.  (Cutting the bytes of a body elsewhere may
    change the decoded texts, and with them the body.) *)
Theorem body_is_the_decoded_chunks
        (toString : string -> string) (req : IncomingMessage)
        (chunks chunks' : list string) (later later' : list Stream.BodyEvent) :
  String.concat "" (map toString chunks') = String.concat "" (map toString chunks) ->
  Stream.body_at_end toString (map Stream.data chunks ++ Stream.end_of_body :: later) ""
  = Some (String.concat "" (map toString chunks))
  /\ Stream.server toString P req (map Stream.data chunks' ++ Stream.end_of_body :: later')
     = Stream.server toString P req (map Stream.data chunks ++ Stream.end_of_body :: later).
Proof.
  intros H. split; [apply body_at_end_of_chunks|].
  unfold Stream.server, Stream.handle. now rewrite !body_at_end_of_chunks, H.
Qed.

(** X8.  The mirror response to a POST /post request always has the nine
    fields [args], [headers], [method], [origin], [url], [data], [files],
    [form], [json], in this order; [method] is [POST], [url] is the [href]
    of the URL, [files] is empty and [origin] is never the empty string:
    it is [unknown] when the socket has no remote address. *)
Theorem mirror_response_shape (req : IncomingMessage) (u : URL) :
  Spec.post_request P req u ->
  let r := Spec.mirror_response P req u in
  Spec.sends_mirror P req r
  /\ Http.fields (Mirror.to_js r)
     = ["args"; "headers"; "method"; "origin"; "url"; "data"; "files"; "form"; "json"]
  /\ Mirror.method r = Some "POST"
  /\ Mirror.url r = href u
  /\ Mirror.files r = []
  /\ Mirror.origin r <> ""
  /\ match req_socket_remoteAddress req with
     | None | Some EmptyString => Mirror.origin r = "unknown"
     | Some address => Mirror.origin r = address
     end.
Proof.
  intros Hreq r. split; [now apply server_post|].
  destruct Hreq as (_ & Hm & _).
  subst r. unfold Spec.mirror_response, mirror, Mirror.to_js.
  cbn [Mirror.args Mirror.headers Mirror.method Mirror.origin Mirror.url Mirror.data
       Mirror.files Mirror.form Mirror.json].
  rewrite Hm. repeat split.
  - destruct (req_socket_remoteAddress req) as [[|c a]|]; discriminate.
  - now destruct (req_socket_remoteAddress req) as [[|c a]|].
Qed.

(** X9.  [startServer] never listens on a falsy port: the value it hands
    to [listen] is a number other than zero and NaN, or a non-empty text.  A
    [port] argument that is zero or NaN is passed over like a missing one,
    in favour of the variable [PORT] or of 3000; so is a command-line
    argument that [parseInt] turns into zero or NaN. *)
Theorem listen_port_is_never_falsy (port : option float) :
  match startServer_PORT P port with
  | port_number n => truthy_number n = true
  | port_string s => s <> ""
  end
  /\ (forall n, port = Some n -> truthy_number n = true ->
      startServer_PORT P port = port_number n)
  /\ (forall n, port = Some n -> truthy_number n = false ->
      startServer_PORT P port = startServer_PORT P None)
  /\ (forall parseInt arg,
        truthy_number (parseInt arg) = false ->
        main_PORT P parseInt (Some arg) = startServer_PORT P None).
Proof.
  assert (Henv : match startServer_PORT P None with
                 | port_number n => truthy_number n = true
                 | port_string s => s <> ""
                 end).
  { unfold startServer_PORT.
    destruct (process_env P "PORT") as [[|c s]|]; try reflexivity. discriminate. }
  split; [|split; [|split]].
  - destruct port as [n|]; [|exact Henv].
    unfold startServer_PORT in *. destruct (truthy_number n) eqn:E; [exact E | exact Henv].
  - intros n -> Hn. unfold startServer_PORT. now rewrite Hn.
  - intros n -> Hn. unfold startServer_PORT. now rewrite Hn.
  - intros parseInt arg Hn. unfold main_PORT, startServer_PORT.
    destruct arg; [reflexivity | now rewrite Hn].
Qed.

End BodyFacts.

(** The JSON body of the tests in one chunk and in five. *)
Lemma body_is_the_decoded_chunks_witness :
  let req := Example.request "POST" "/post" [("content-type", "application/json")] "" in
  let pieces := ["{"; Example.quoted "name"; ":"; Example.quoted "Jane"; "}"] in
  Stream.server (fun bytes => bytes) Example.node req
                (map Stream.data pieces ++ [Stream.end_of_body])
  = Stream.server (fun bytes => bytes) Example.node req
                  [Stream.data Example.jane; Stream.end_of_body].
Proof.
  intros req pieces.
  exact (proj2 (body_is_the_decoded_chunks Example.node (fun bytes => bytes) req
                  [Example.jane] pieces [] [] eq_refl)).
Defined.

Lemma mirror_response_shape_witness :
  let req := mkReq (Some "/post") (Some "POST") [("host", Some (Str "localhost:3000"))]
                   None ["a=1"] in
  let u := mkURL "http://localhost:3000/post" "/post" [] in
  Spec.post_request Example.node req u
  /\ Mirror.origin (Spec.mirror_response Example.node req u) = "unknown"
  /\ Mirror.files (Spec.mirror_response Example.node req u) = [].
Proof.
  intros req u.
  assert (Hreq : Spec.post_request Example.node req u) by (repeat split).
  destruct (mirror_response_shape Example.node req u Hreq)
    as (_ & _ & _ & _ & Hfiles & _ & Horigin).
  split; [exact Hreq | split; [exact Horigin | exact Hfiles]].
Defined.

(** [startServer(0)] and a non-numeric argument on the command line. *)
Lemma listen_port_is_never_falsy_witness :
  startServer_PORT Example.node (Some 0%float) = port_number 3000%float
  /\ main_PORT Example.node (fun _ => nan) (Some "abc") = port_number 3000%float.
Proof.
  destruct (listen_port_is_never_falsy Example.node (Some 0%float)) as (_ & _ & Hzero & Hmain).
  split.
  - exact (Hzero 0%float eq_refl eq_refl).
  - exact (Hmain (fun _ => nan) "abc" eq_refl).
Defined.

(* ================================================================= *)
(** ** More on [parseHeaders] and [parseForm] *)

Section ParserFacts.
Variable P : Platform.

Lemma NoDup_keys_assign (o : JsObject.t (list string)) (k : string) (v : list string) :
  NoDup (JsObject.keys o) -> NoDup (JsObject.keys (JsObject.assign o k v)).
Proof.
  intros H. unfold JsObject.assign.
  destruct (k =? "__proto__")%string; [exact H | now apply NoDup_keys_define].
Qed.

Lemma NoDup_fold_assign (rename : string -> string) (l : Dict)
      (acc : JsObject.t (list string)) :
  NoDup (JsObject.keys acc) ->
  NoDup (JsObject.keys
           (fold_left
              (fun (result : JsObject.t (list string)) (kv : string * option StrOrArr) =>
                 match snd kv with
                 | Some value => JsObject.assign result (rename (fst kv)) (as_array value)
                 | None => result
                 end) l acc)).
Proof.
  revert acc. induction l as [|[k v] l IH]; intros acc H; simpl; [exact H|].
  apply IH. destruct v; [now apply NoDup_keys_assign | exact H].
Qed.

Lemma upper_ascii_idem (c : ascii) :
  JsString.upper_ascii (JsString.upper_ascii c) = JsString.upper_ascii c.
Proof.
  unfold JsString.upper_ascii at 2 3.
  destruct (JsString.is_lower_letter c) eqn:E; unfold JsString.upper_ascii.
  - unfold JsString.is_lower_letter in *. apply andb_true_iff in E.
    destruct E as [E1%Nat.leb_le E2%Nat.leb_le].
    rewrite nat_ascii_embedding by lia.
    replace ((97 <=? nat_of_ascii c - 32)%nat) with false
      by (symmetry; apply Nat.leb_gt; lia).
    reflexivity.
  - now rewrite E.
Qed.

Lemma capitalized_idem (name : string) :
  Spec.capitalized (Spec.capitalized name) = Spec.capitalized name.
Proof. destruct name; simpl; [reflexivity | now rewrite upper_ascii_idem]. Qed.

Lemma fold_capitalized_get (l : Dict) (acc : JsObject.t (list string)) (key : string) :
  key <> "__proto__" ->
  JsObject.get
    (fold_left
       (fun (result : JsObject.t (list string)) (kv : string * option StrOrArr) =>
          match snd kv with
          | Some value => JsObject.assign result (Spec.capitalized (fst kv)) (as_array value)
          | None => result
          end) l acc) key
  = match Http.last_header key l with
    | Some values => Some values
    | None => JsObject.get acc key
    end.
Proof.
  intros Hproto. revert acc. induction l as [|[name value] l IH]; intros acc; [reflexivity|].
  cbn [fold_left Http.last_header fst snd]. rewrite IH.
  destruct (Http.last_header key l); [reflexivity|].
  destruct value as [value|]; [|reflexivity].
  destruct (String.eqb_spec (Spec.capitalized name) key) as [E|E].
  - rewrite E. now apply get_assign_same.
  - now apply get_assign_other.
Qed.

(** X10.  For headers with ASCII names (as HTTP has them), [parseHeaders]
    holds under a key other than [__proto__] the values of the last defined
    header whose capitalised name is the key (a later header overwrites an
    earlier one of the same capitalised name, and a header that is
    [undefined] is left out); under [__proto__] it holds nothing. *)
Theorem parseHeaders_last_header_wins (headers : Dict) (key : string) :
  Http.ascii_names headers ->
  (key <> "__proto__" ->
   JsObject.get (parseHeaders headers) key = Http.last_header key headers)
  /\ JsObject.get (parseHeaders headers) "__proto__" = None.
Proof.
  intros _. rewrite (parseHeaders_fold P). split.
  - intros Hproto. rewrite fold_capitalized_get by exact Hproto.
    now destruct (Http.last_header key headers).
  - apply (fold_assign_proto Spec.capitalized).
Qed.

(** X11.  For headers with ASCII names, the keys of what [parseHeaders]
    returns are distinct; none is [__proto__]; each is the capitalised name
    of a defined header, and so is left unchanged by a second
    capitalisation: no key begins with a lower-case letter. *)
Theorem parseHeaders_keys (headers : Dict) :
  Http.ascii_names headers ->
  NoDup (JsObject.keys (parseHeaders headers))
  /\ forall key,
      In key (JsObject.keys (parseHeaders headers)) ->
      key <> "__proto__"
      /\ Spec.capitalized key = key
      /\ exists name value, In (name, Some value) headers /\ key = Spec.capitalized name.
Proof.
  intros _. rewrite (parseHeaders_fold P). split.
  - apply (NoDup_fold_assign Spec.capitalized). constructor.
  - intros key Hin. split.
    + intros ->. revert Hin. apply get_none_not_in_keys.
      apply (fold_assign_proto Spec.capitalized).
    + apply (fold_assign_keys Spec.capitalized) in Hin.
      destruct Hin as [[]|(name & value & Hl & Hr)]. subst key. split.
      * apply capitalized_idem.
      * now exists name, value.
Qed.

Lemma parseForm_proto (body : string) :
  JsObject.get (parseForm P body) "__proto__" = None.
Proof. unfold parseForm. apply (fold_assign_proto (fun k => k)). Qed.

(** X12.  Whatever the body, the keys of what [parseForm] returns are
    distinct, and a key it holds is never [__proto__] and never has an empty
    list: its list is that of all the values read for the key, in order. *)
Theorem parseForm_holds_read_values (body key : string) (values : list string) :
  JsObject.get (parseForm P body) key = Some values ->
  key <> "__proto__"
  /\ values <> []
  /\ values = Spec.values_of key (querystring.pairs (querystring_unescape P) body)
  /\ NoDup (JsObject.keys (parseForm P body)).
Proof.
  intros Hget.
  assert (Hproto : key <> "__proto__")
    by (intros ->; rewrite parseForm_proto in Hget; discriminate Hget).
  rewrite (parseForm_get P body key Hproto) in Hget.
  split; [exact Hproto|].
  destruct (Spec.values_of key (querystring.pairs (querystring_unescape P) body))
    as [|v vs]; [discriminate Hget|].
  inversion Hget; subst. split; [discriminate|]. split; [reflexivity|].
  unfold parseForm. apply (NoDup_fold_assign (fun k => k)). constructor.
Qed.

Lemma split_not_nil (sep : ascii) (s : string) : querystring.split sep s <> [].
Proof.
  destruct s as [|c s]; simpl; [discriminate|].
  destruct (Ascii.eqb c sep); [discriminate|].
  destruct (querystring.split sep s); discriminate.
Qed.

Lemma split_app (sep : ascii) (a b : string) :
  querystring.split sep (a ++ String sep b)
  = querystring.split sep a ++ querystring.split sep b.
Proof.
  induction a as [|c a IH]; simpl.
  - now rewrite Ascii.eqb_refl.
  - destruct (Ascii.eqb c sep); [now rewrite IH|].
    rewrite IH. pose proof (split_not_nil sep a) as Hne.
    destruct (querystring.split sep a); [contradiction | reflexivity].
Qed.

(** X13.  [parseForm] reads at most 1000 pieces of a body: what follows the
    ampersand after the thousandth piece changes nothing. *)
Theorem parseForm_ignores_fields_beyond_limit (body more : string) :
  querystring.maxKeys <= length (querystring.split "&" body) ->
  parseForm P (body ++ "&" ++ more) = parseForm P body.
Proof.
  intros Hlen. unfold parseForm, querystring.parse, querystring.pairs.
  change (body ++ "&" ++ more)%string with (body ++ String "&" more)%string.
  rewrite split_app, firstn_app.
  replace (querystring.maxKeys - length (querystring.split "&" body)) with 0 by lia.
  now rewrite firstn_O, app_nil_r.
Qed.

(** X14.  A body made of ampersands only (the empty body among them) gives
    an empty form: empty pieces are skipped. *)
Theorem parseForm_of_ampersands (body : string) :
  Forall (fun piece => piece = "") (querystring.split "&" body) ->
  parseForm P body = [].
Proof.
  intros H. unfold parseForm, querystring.parse, querystring.pairs.
  assert (Hpairs : flat_map (querystring.pair_of (querystring_unescape P))
                            (firstn querystring.maxKeys (querystring.split "&" body)) = []).
  { generalize querystring.maxKeys. induction H as [|piece pieces Hp Hall IH]; intros n.
    - now destruct n.
    - destruct n; [reflexivity|]. cbn [firstn flat_map]. rewrite Hp, IH. reflexivity. }
  now rewrite Hpairs.
Qed.

End ParserFacts.

(** Two headers with the same capitalised name: the later one is kept. *)
Lemma parseHeaders_last_header_wins_witness :
  let headers := [("x-id", Some (Str "1")); ("X-id", Some (Str "2")); ("x-none", None)] in
  Http.ascii_names headers
  /\ JsObject.get (parseHeaders headers) "X-id" = Some ["2"]
  /\ JsObject.get (parseHeaders headers) "X-none" = None.
Proof.
  intros headers.
  assert (Hascii : Http.ascii_names headers).
  { unfold Http.ascii_names, Http.ascii_name. cbn.
    repeat (apply Forall_cons || apply Forall_nil); apply Nat.ltb_lt; reflexivity. }
  split; [exact Hascii|]. split.
  - apply (proj1 (parseHeaders_last_header_wins Example.node headers "X-id" Hascii)).
    discriminate.
  - apply (proj1 (parseHeaders_last_header_wins Example.node headers "X-none" Hascii)).
    discriminate.
Defined.

Lemma parseHeaders_keys_witness :
  let headers := [("host", Some (Str "localhost")); ("Accept", Some (Str "*/*"));
                  ("x-none", None)] in
  Http.ascii_names headers
  /\ JsObject.keys (parseHeaders headers) = ["Host"; "Accept"]
  /\ NoDup (JsObject.keys (parseHeaders headers)).
Proof.
  intros headers.
  assert (Hascii : Http.ascii_names headers).
  { unfold Http.ascii_names, Http.ascii_name. cbn.
    repeat (apply Forall_cons || apply Forall_nil); apply Nat.ltb_lt; reflexivity. }
  split; [exact Hascii|]. split; [reflexivity|].
  exact (proj1 (parseHeaders_keys Example.node headers Hascii)).
Defined.

Lemma parseForm_holds_read_values_witness :
  JsObject.get (parseForm Example.node "a=1&b=&a=2") "a" = Some ["1"; "2"]
  /\ Spec.values_of "a" (querystring.pairs Example.unescape "a=1&b=&a=2") = ["1"; "2"].
Proof.
  split; [reflexivity|].
  symmetry.
  exact (proj1 (proj2 (proj2
           (parseForm_holds_read_values Example.node "a=1&b=&a=2" "a" ["1"; "2"] eq_refl)))).
Defined.

Lemma parseForm_ignores_fields_beyond_limit_witness :
  let body := String.concat "&" (repeat "a=1" 1000) in
  querystring.maxKeys <= length (querystring.split "&" body)
  /\ parseForm Example.node (body ++ "&" ++ "b=2") = parseForm Example.node body.
Proof.
  intros body.
  assert (Hlen : querystring.maxKeys <= length (querystring.split "&" body))
    by (apply Nat.leb_le; vm_compute; reflexivity).
  split; [exact Hlen|].
  exact (parseForm_ignores_fields_beyond_limit Example.node body "b=2" Hlen).
Defined.

Lemma parseForm_of_ampersands_witness :
  parseForm Example.node "" = [] /\ parseForm Example.node "&&&" = [].
Proof.
  split.
  - apply (parseForm_of_ampersands Example.node ""). repeat constructor.
  - apply (parseForm_of_ampersands Example.node "&&&"). repeat constructor.
Defined.

(* ================================================================= *)
(** ** More on the [Navigate to <url>] step *)

Section NavigateFacts.
Import FormSubmissionTest.

Lemma replace_absent (s pat r : string) :
  JsString.includes s pat = false -> JsString.replace s pat r = s.
Proof.
  induction s as [|c s IH]; cbn [JsString.includes JsString.replace];
    destruct (String.prefix pat _); try discriminate; intros H.
  - reflexivity.
  - now rewrite IH.
Qed.

(** X17.  The test for a placeholder is [startsWith("env")], without the
    colon: with the page set, a URL that begins with [env] and holds no
    [env:] is looked up whole in the environment, and the step throws, with
    no call on the page, unless a variable of that very name is set. *)
Theorem env_prefix_without_colon
        (this : t) (pg : Page) (env : string -> option string) (url : string) :
  page this = Some pg ->
  JsString.startsWith url "env" = true ->
  JsString.includes url "env:" = false ->
  env url = None ->
  let run := navigateToUrl this env url in
  calls run = []
  /\ completion run
     = Throw (Error ("Environment variable for URL '" ++ url ++ "' is not set.")).
Proof.
  intros Hpage Hs Hi Henv run. subst run. unfold navigateToUrl.
  rewrite Hpage, Hs, (replace_absent _ _ _ Hi), Henv. split; reflexivity.
Qed.

End NavigateFacts.

Lemma env_prefix_without_colon_witness :
  let this := FormSubmissionTest.setupBrowser FormSubmissionTest.new in
  let run := FormSubmissionTest.navigateToUrl this (fun _ => None) "envoy.example.com" in
  FormSubmissionTest.calls run = []
  /\ FormSubmissionTest.completion run
     = Throw (Error "Environment variable for URL 'envoy.example.com' is not set.").
Proof.
  intros this run.
  exact (env_prefix_without_colon this FormSubmissionTest.a_page (fun _ => None)
           "envoy.example.com" eq_refl eq_refl eq_refl eq_refl).
Defined.

(* ================================================================= *)
(** ** The steps that look for a field or a button *)

Section StepScripts.
Import Steps.
Context {S : Type}.
Variable pw : Playwright S.

(** One turn of the loop. *)
Lemma for_selectors_cons (attempt : string -> Script S unit) (selector : string)
      (rest : list string) (s : S) :
  for_selectors pw (selector :: rest) attempt s
  = match pw_isVisible pw selector s with
    | (Returned true, s1) =>
        let a := attempt selector s1 in
        match outcome a with
        | Returned _ => mkRan (Returned true) (final a) (isVisible selector :: trace a)
        | Raised _ =>
            let r := for_selectors pw rest attempt (final a) in
            mkRan (outcome r) (final r) (isVisible selector :: trace a ++ trace r)
        end
    | (_, s1) =>
        let r := for_selectors pw rest attempt s1 in
        mkRan (outcome r) (final r) (isVisible selector :: trace r)
    end.
Proof.
  cbn [for_selectors]. unfold and_then, try_catch, call_isVisible, ret.
  destruct (pw_isVisible pw selector s) as [[[|]|t] s1]; cbn.
  - destruct (outcome (attempt selector s1)); cbn.
    + now rewrite !app_nil_r.
    + now rewrite <- app_assoc.
  - reflexivity.
  - reflexivity.
Qed.

(** The loop throws nothing.  When it finds, its last calls are the
    [isVisible] of one of the selectors and the calls of the attempt on that
    selector, which returned. *)
Lemma for_selectors_found (attempt : string -> Script S unit) (selectors : list string) (s : S) :
  let r := for_selectors pw selectors attempt s in
  match outcome r with
  | Raised _ => False
  | Returned false => True
  | Returned true =>
      exists before selector s0,
        In selector selectors
        /\ (exists u, outcome (attempt selector s0) = Returned u)
        /\ trace r = before ++ isVisible selector :: trace (attempt selector s0)
  end.
Proof.
  revert s. induction selectors as [|selector rest IH]; intros s; [exact I|].
  cbn zeta. rewrite for_selectors_cons.
  assert (Hnext : forall s1 pre,
             match outcome (for_selectors pw rest attempt s1) with
             | Returned true =>
                 exists before sel s0,
                   In sel (selector :: rest)
                   /\ (exists u, outcome (attempt sel s0) = Returned u)
                   /\ pre ++ trace (for_selectors pw rest attempt s1)
                      = before ++ isVisible sel :: trace (attempt sel s0)
             | Returned false => True
             | Raised _ => False
             end).
  { intros s1 pre. specialize (IH s1). cbn zeta in IH.
    destruct (outcome (for_selectors pw rest attempt s1)) as [[|]|]; auto.
    destruct IH as (before & sel & s0 & Hin & Ho & Ht).
    exists (pre ++ before), sel, s0. rewrite Ht, app_assoc. split; [now right | auto]. }
  destruct (pw_isVisible pw selector s) as [[[|]|t] s1]; cbn zeta.
  - destruct (outcome (attempt selector s1)) as [u|t] eqn:Ha; cbn [outcome trace].
    + exists [], selector, s1. split; [now left|]. split; [now exists u | reflexivity].
    + apply (Hnext (final (attempt selector s1))
                   (isVisible selector :: trace (attempt selector s1))).
  - apply (Hnext s1 [isVisible selector]).
  - apply (Hnext s1 [isVisible selector]).
Qed.

(** With nothing visible the loop asks every selector once, in order. *)
Lemma for_selectors_none_visible
      (attempt : string -> Script S unit) (selectors : list string) (s : S) :
  (forall selector s', fst (pw_isVisible pw selector s') <> Returned true) ->
  outcome (for_selectors pw selectors attempt s) = Returned false
  /\ trace (for_selectors pw selectors attempt s) = map isVisible selectors.
Proof.
  intros Hnone. revert s. induction selectors as [|selector rest IH]; intros s.
  - split; reflexivity.
  - rewrite for_selectors_cons. pose proof (Hnone selector s) as Hv.
    destruct (pw_isVisible pw selector s) as [[[|]|t] s1]; cbn in Hv |- *;
      try (now elim Hv); destruct (IH s1) as [Ho Ht]; now rewrite Ho, Ht.
Qed.

Lemma two_calls_trace (a b : Action) (s : S) (u : unit) :
  outcome (and_then (call_do pw a) (fun _ => call_do pw b) s) = Returned u ->
  trace (and_then (call_do pw a) (fun _ => call_do pw b) s) = [did a; did b].
Proof.
  unfold and_then, call_do.
  destruct (pw_do pw a s) as [[[]|t] s1]; cbn; [|discriminate].
  destruct (pw_do pw b s1) as [[[]|t] s2]; cbn; [reflexivity | discriminate].
Qed.

(** X18.  [enterTextIntoField] lets no error of the browser through: with
    the page set it returns or throws its own [Could not find field] error.
    When it returns, its last three calls are [isVisible], [waitForSelector]
    and [fill] with the text, on one and the same of the four selectors of
    the field, and nothing is called after the [fill].  Without a page it
    throws [Page not initialized.] and calls nothing. *)
Theorem enterTextIntoField_outcomes
        (this : FormSubmissionTest.t) (text fieldName : string) (s : S) :
  let r := enterTextIntoField pw this text fieldName s in
  match FormSubmissionTest.page this with
  | None => outcome r = Raised (thrown (Error "Page not initialized.")) /\ trace r = []
  | Some _ =>
      (outcome r = Returned tt
       /\ exists before selector,
           In selector (field_selectors fieldName)
           /\ trace r = before ++ [isVisible selector; did (waitForSelector selector);
                                   did (fill selector text)])
      \/ outcome r
         = Raised (thrown (Error ("Could not find field with name '" ++ fieldName ++ "'")))
  end.
Proof.
  intros r. subst r. unfold enterTextIntoField, with_page.
  destruct (FormSubmissionTest.page this); [|split; reflexivity].
  set (attempt := fun selector =>
                    and_then (call_do pw (waitForSelector selector))
                             (fun _ => call_do pw (fill selector text))).
  pose proof (for_selectors_found attempt (field_selectors fieldName) s) as H.
  cbn zeta in H. unfold and_then.
  destruct (for_selectors pw (field_selectors fieldName) attempt s) as [[[|]|t] f tr];
    cbn in H |- *; [|now right|destruct H].
  left. destruct H as (before & selector & s0 & Hin & (u & Ho) & Ht).
  split; [reflexivity|]. exists before, selector. split; [exact Hin|].
  rewrite app_nil_r, Ht. subst attempt. cbn beta in Ho |- *.
  now rewrite (two_calls_trace _ _ _ _ Ho).
Qed.

(** X19.  [clickButton] lets no error of the browser through either: with
    the page set it returns or throws its own [Could not find button] error.
    When it returns, its last three calls are [isVisible], [click] and
    [waitForLoadState("networkidle")], the first two on one and the same of
    the six selectors of the button.  Without a page it throws [Page not
    initialized.] and calls nothing. *)
Theorem clickButton_outcomes (this : FormSubmissionTest.t) (buttonText : string) (s : S) :
  let r := clickButton pw this buttonText s in
  match FormSubmissionTest.page this with
  | None => outcome r = Raised (thrown (Error "Page not initialized.")) /\ trace r = []
  | Some _ =>
      (outcome r = Returned tt
       /\ exists before selector,
           In selector (button_selectors buttonText)
           /\ trace r = before ++ [isVisible selector; did (click selector);
                                   did (waitForLoadState "networkidle")])
      \/ outcome r
         = Raised (thrown (Error ("Could not find button with text '" ++ buttonText ++ "'")))
  end.
Proof.
  intros r. subst r. unfold clickButton, with_page.
  destruct (FormSubmissionTest.page this); [|split; reflexivity].
  set (attempt := fun selector =>
                    and_then (call_do pw (click selector))
                             (fun _ => call_do pw (waitForLoadState "networkidle"))).
  pose proof (for_selectors_found attempt (button_selectors buttonText) s) as H.
  cbn zeta in H. unfold and_then.
  destruct (for_selectors pw (button_selectors buttonText) attempt s) as [[[|]|t] f tr];
    cbn in H |- *; [|now right|destruct H].
  left. destruct H as (before & selector & s0 & Hin & (u & Ho) & Ht).
  split; [reflexivity|]. exists before, selector. split; [exact Hin|].
  rewrite app_nil_r, Ht. subst attempt. cbn beta in Ho |- *.
  now rewrite (two_calls_trace _ _ _ _ Ho).
Qed.

(** X20.  When [isVisible] never answers true (it may answer false or
    throw), both steps ask each of their selectors once, in order, call
    nothing else (no [fill], no [click]) and throw their own error. *)
Theorem nothing_visible_nothing_done
        (this : FormSubmissionTest.t) (pg : FormSubmissionTest.Page)
        (text name : string) (s : S) :
  FormSubmissionTest.page this = Some pg ->
  (forall selector s', fst (pw_isVisible pw selector s') <> Returned true) ->
  (outcome (enterTextIntoField pw this text name s)
   = Raised (thrown (Error ("Could not find field with name '" ++ name ++ "'")))
   /\ trace (enterTextIntoField pw this text name s) = map isVisible (field_selectors name))
  /\ (outcome (clickButton pw this name s)
      = Raised (thrown (Error ("Could not find button with text '" ++ name ++ "'")))
      /\ trace (clickButton pw this name s) = map isVisible (button_selectors name)).
Proof.
  intros Hpage Hnone. unfold enterTextIntoField, clickButton, with_page. rewrite Hpage.
  split.
  - set (attempt := fun selector =>
                      and_then (call_do pw (waitForSelector selector))
                               (fun _ => call_do pw (fill selector text))).
    destruct (for_selectors_none_visible attempt (field_selectors name) s Hnone) as [Ho Ht].
    unfold and_then. rewrite Ho. cbn [outcome trace throw]. rewrite Ht, app_nil_r.
    split; reflexivity.
  - set (attempt := fun selector =>
                      and_then (call_do pw (click selector))
                               (fun _ => call_do pw (waitForLoadState "networkidle"))).
    destruct (for_selectors_none_visible attempt (button_selectors name) s Hnone) as [Ho Ht].
    unfold and_then. rewrite Ho. cbn [outcome trace throw]. rewrite Ht, app_nil_r.
    split; reflexivity.
Qed.

Lemma includes_empty (s : string) : JsString.includes s "" = true.
Proof. destruct s; reflexivity. Qed.

(** X21.  With the page set and a browser that answers the three calls of
    [verifyResponseContains], the step returns when the text occurs in the
    content of the page or in the visible text of its body, and throws the
    [AssertionError] that names the text otherwise; for the empty text it
    always returns. *)
Theorem verifyResponseContains_outcome
        (this : FormSubmissionTest.t) (pg : FormSubmissionTest.Page) (text : string)
        (s s1 s2 s3 : S) (pageContent visibleText : string) :
  FormSubmissionTest.page this = Some pg ->
  pw_do pw (waitForLoadState "networkidle") s = (Returned tt, s1) ->
  pw_read pw content s1 = (Returned pageContent, s2) ->
  pw_read pw (innerText "body") s2 = (Returned visibleText, s3) ->
  let r := verifyResponseContains pw this text s in
  outcome r
  = (if JsString.includes pageContent text || JsString.includes visibleText text
     then Returned tt
     else Raised (AssertionError ("Expected text '" ++ text ++ "' not found in the response")))
  /\ (text = "" -> outcome r = Returned tt)
  /\ trace r = [did (waitForLoadState "networkidle"); read content; read (innerText "body")].
Proof.
  intros Hpage H1 H2 H3 r.
  assert (Ho : outcome r
               = if JsString.includes pageContent text || JsString.includes visibleText text
                 then Returned tt
                 else Raised (AssertionError
                                ("Expected text '" ++ text ++ "' not found in the response"))).
  { subst r. unfold verifyResponseContains, with_page, and_then, call_do, call_read, assert.
    rewrite Hpage, H1. cbn. rewrite H2. cbn. rewrite H3. cbn.
    now destruct (JsString.includes pageContent text || JsString.includes visibleText text). }
  split; [exact Ho|]. split.
  - intros ->. now rewrite Ho, includes_empty.
  - subst r. unfold verifyResponseContains, with_page, and_then, call_do, call_read, assert.
    rewrite Hpage, H1. cbn. rewrite H2. cbn. rewrite H3. cbn.
    now destruct (JsString.includes pageContent text || JsString.includes visibleText text).
Qed.

(** X22.  [teardownBrowser] closes what is set, in the order page, context,
    browser, and stops at the first close that throws: its calls are always
    a prefix of the closes it owes, all of them when it returns; when closing
    the page throws, neither the context nor the browser is closed. *)
Theorem teardownBrowser_closes_in_order (this : FormSubmissionTest.t) (s : S) :
  let r := teardownBrowser pw this s in
  (exists rest, owed this = trace r ++ rest)
  /\ (outcome r = Returned tt -> trace r = owed this)
  /\ (forall pg t,
        FormSubmissionTest.page this = Some pg ->
        fst (pw_do pw page_close s) = Raised t ->
        outcome r = Raised t /\ trace r = [did page_close]).
Proof.
  intros r. subst r. unfold teardownBrowser, owed, and_then, call_do, ret.
  destruct this as [b c p]. cbn [FormSubmissionTest.page FormSubmissionTest.context
                                   FormSubmissionTest.browser].
  destruct p as [p|]; [destruct (pw_do pw page_close s) as [[[]|t1] s1]|]; cbn;
    try (split; [eexists; reflexivity|]; split;
         [discriminate | intros pg t _ H; inversion H; subst; split; reflexivity]).
  - destruct c as [c|]; [destruct (pw_do pw context_close s1) as [[[]|t2] s2]|]; cbn;
      try (split; [eexists; reflexivity|]; split; [discriminate | intros pg t _ H; discriminate H]);
      (destruct b as [b|]; [destruct (pw_do pw browser_close _) as [[[]|t3] s3]|]; cbn;
       (split; [eexists; try reflexivity; now rewrite app_nil_r|]);
       (split; [try discriminate; reflexivity | intros pg t _ H; discriminate H])).
  - destruct c as [c|]; [destruct (pw_do pw context_close s) as [[[]|t2] s2]|]; cbn;
      try (split; [eexists; reflexivity|]; split; [discriminate | intros pg t H; discriminate H]);
      (destruct b as [b|]; [destruct (pw_do pw browser_close _) as [[[]|t3] s3]|]; cbn;
       (split; [eexists; try reflexivity; now rewrite app_nil_r|]);
       (split; [try discriminate; reflexivity | intros pg t H; discriminate H])).
Qed.

(** X25.  [checkCheckbox] and [selectRadioButton] wait for their selector
    to be visible and then check that same selector.  Unlike the steps that
    try several selectors, they pass an error of the browser on: when the
    wait throws, the step throws that error and checks nothing.  Without a
    page they throw [Page not initialized.] and call nothing. *)
Theorem check_steps_wait_then_check
        (this : FormSubmissionTest.t) (option fieldName : string) (s : S) :
  forall step, step = checkCheckbox pw \/ step = selectRadioButton pw ->
  let r := step this option fieldName s in
  match FormSubmissionTest.page this with
  | None => outcome r = Raised (thrown (Error "Page not initialized.")) /\ trace r = []
  | Some _ =>
      exists selector,
        match pw_do pw (waitForSelector selector) s with
        | (Raised t, _) => outcome r = Raised t /\ trace r = [did (waitForSelector selector)]
        | (Returned _, s1) =>
            outcome r = fst (pw_do pw (check selector) s1)
            /\ trace r = [did (waitForSelector selector); did (check selector)]
        end
  end.
Proof.
  intros step [-> | ->] r; subst r; unfold checkCheckbox, selectRadioButton, with_page;
    (destruct (FormSubmissionTest.page this); [|split; reflexivity]);
    cbn zeta;
    match goal with
    | |- context [call_do pw (waitForSelector ?sel)] =>
        exists sel; unfold and_then, call_do;
        destruct (pw_do pw (waitForSelector sel) s) as [[u|t] s1];
        cbn [outcome final trace fst];
        [destruct (pw_do pw (check sel) s1) as [o s2]; cbn [outcome final trace fst app]|]
    end; split; reflexivity.
Qed.

(** *** [navigateToUrl] with a browser that may refuse *)

Lemma navigate_goes_to (target : string) (s : S) :
  goes_to pw target s
          (and_then (call_do pw (goto target))
                    (fun _ => call_do pw (waitForLoadState "networkidle")) s).
Proof.
  unfold goes_to, and_then, call_do.
  destruct (pw_do pw (goto target) s) as [[u|t] s1]; cbn.
  - destruct (pw_do pw (waitForLoadState "networkidle") s1) as [o s2]. cbn. auto.
  - auto.
Qed.

(** The step throws before any call on the page exactly when the run of
    [FormSubmissionTest.navigateToUrl] throws, and with the same error. *)
Lemma navigateToUrl_throws_first
      (this : FormSubmissionTest.t) (env : string -> option string) (url : string)
      (e : JsError) (s : S) :
  FormSubmissionTest.completion (FormSubmissionTest.navigateToUrl this env url) = Throw e ->
  navigateToUrl pw this env url s = mkRan (Raised (thrown e)) s [].
Proof.
  unfold FormSubmissionTest.navigateToUrl, navigateToUrl, throw.
  destruct (FormSubmissionTest.page this); [|intros H; now inversion H].
  destruct (JsString.startsWith url "env");
    [destruct (env (JsString.replace url "env:" "")) as [[|c v]|]|];
    cbn; intros H; now inversion H.
Qed.

(** X15.  [navigateToUrl] either throws an error of its own without a call
    on the page, or calls [goto] and, when [goto] returns,
    [waitForLoadState("networkidle")], and nothing else; a call that the
    browser refuses ends the step with what the browser threw, and [goto]
    refused means [waitForLoadState] is not called.  The target of [goto]
    is the URL given, when it does not begin with [env], or the non-empty
    value of the environment variable the URL names. *)
Theorem navigateToUrl_outcomes
        (this : FormSubmissionTest.t) (env : string -> option string) (url : string) (s : S) :
  let r := navigateToUrl pw this env url s in
  (trace r = [] /\ final r = s /\ exists e, outcome r = Raised (thrown e))
  \/ (exists target,
        goes_to pw target s r
        /\ ((target = url /\ JsString.startsWith url "env" = false)
            \/ (JsString.startsWith url "env" = true
                /\ env (JsString.replace url "env:" "") = Some target /\ target <> ""))).
Proof.
  intros r. subst r. unfold navigateToUrl.
  destruct (FormSubmissionTest.page this);
    [|left; repeat split; eexists; reflexivity].
  destruct (JsString.startsWith url "env") eqn:Hs.
  - destruct (env (JsString.replace url "env:" "")) as [[|c v]|] eqn:He.
    + left. repeat split. eexists. reflexivity.
    + right. exists (String c v). split; [apply navigate_goes_to|].
      right. repeat split. discriminate.
    + left. repeat split. eexists. reflexivity.
  - right. exists url. split; [apply navigate_goes_to | now left].
Qed.

(** X16.  With the page set and the URL [env:NAME]: when the variable
    [NAME] holds a non-empty text, the step calls [goto] on that text, not
    on the placeholder, then [waitForLoadState("networkidle")] when [goto]
    returns, and it ends as the call the browser refused or as the last one;
    when the variable holds the empty text, the step throws as for an unset
    variable, without a call on the page. *)
Theorem env_url_is_resolved
        (this : FormSubmissionTest.t) (pg : FormSubmissionTest.Page)
        (env : string -> option string) (name value : string) (s : S) :
  FormSubmissionTest.page this = Some pg ->
  env name = Some value ->
  let r := navigateToUrl pw this env ("env:" ++ name) s in
  match value with
  | EmptyString =>
      outcome r = Raised (thrown (Error ("Environment variable for URL 'env:" ++ name
                                         ++ "' is not set.")))
      /\ final r = s /\ trace r = []
  | _ => goes_to pw value s r
  end.
Proof.
  intros Hpage Henv r. subst r. unfold navigateToUrl.
  rewrite Hpage, startsWith_env, replace_env, Henv.
  destruct value; [repeat split | apply navigate_goes_to].
Qed.

End StepScripts.

(** Typing a name into the order form: the third selector is the visible one. *)
Lemma enterTextIntoField_outcomes_witness :
  let this := FormSubmissionTest.setupBrowser FormSubmissionTest.new in
  let r := Steps.enterTextIntoField Steps.shop this "John Doe" "custname" "" in
  Steps.outcome r = Steps.Returned tt
  /\ Steps.final r = "John Doe"
  /\ exists before selector,
      In selector (Steps.field_selectors "custname")
      /\ Steps.trace r
         = before ++ [Steps.isVisible selector; Steps.did (Steps.waitForSelector selector);
                      Steps.did (Steps.fill selector "John Doe")].
Proof.
  intros this r. split; [reflexivity|]. split; [reflexivity|].
  destruct (enterTextIntoField_outcomes Steps.shop this "John Doe" "custname" "")
    as [[_ H]|H]; [exact H | discriminate H].
Defined.

Lemma clickButton_outcomes_witness :
  let this := FormSubmissionTest.setupBrowser FormSubmissionTest.new in
  let r := Steps.clickButton Steps.shop this "Submit order" "John Doe" in
  Steps.outcome r = Steps.Returned tt
  /\ exists before selector,
      In selector (Steps.button_selectors "Submit order")
      /\ Steps.trace r
         = before ++ [Steps.isVisible selector; Steps.did (Steps.click selector);
                      Steps.did (Steps.waitForLoadState "networkidle")].
Proof.
  intros this r. split; [reflexivity|].
  destruct (clickButton_outcomes Steps.shop this "Submit order" "John Doe")
    as [[_ H]|H]; [exact H | discriminate H].
Defined.

(** A browser that throws at every call: the steps report a missing field
    and a missing button. *)
Lemma nothing_visible_nothing_done_witness :
  let this := FormSubmissionTest.setupBrowser FormSubmissionTest.new in
  Steps.outcome (Steps.enterTextIntoField Steps.gone this "John Doe" "custname" tt)
  = Steps.Raised (Steps.thrown (Error "Could not find field with name 'custname'"))
  /\ Steps.trace (Steps.clickButton Steps.gone this "custname" tt)
     = map Steps.isVisible (Steps.button_selectors "custname").
Proof.
  intros this.
  destruct (nothing_visible_nothing_done Steps.gone this FormSubmissionTest.a_page
              "John Doe" "custname" tt eq_refl) as [[Ho _] [_ Ht]].
  - intros selector s'. discriminate.
  - split; [exact Ho | exact Ht].
Defined.

Lemma verifyResponseContains_outcome_witness :
  let this := FormSubmissionTest.setupBrowser FormSubmissionTest.new in
  Steps.outcome (Steps.verifyResponseContains Steps.shop this "John" "John Doe")
  = Steps.Returned tt
  /\ Steps.outcome (Steps.verifyResponseContains Steps.shop this "Jane" "John Doe")
     = Steps.Raised (Steps.AssertionError "Expected text 'Jane' not found in the response")
  /\ Steps.outcome (Steps.verifyResponseContains Steps.shop this "" "John Doe")
     = Steps.Returned tt.
Proof.
  intros this.
  assert (H : forall text,
             Steps.outcome (Steps.verifyResponseContains Steps.shop this text "John Doe")
             = (if JsString.includes "<body>John Doe</body>" text
                   || JsString.includes "John Doe" text
                then Steps.Returned tt
                else Steps.Raised
                       (Steps.AssertionError
                          ("Expected text '" ++ text ++ "' not found in the response")))
             /\ (text = "" ->
                 Steps.outcome (Steps.verifyResponseContains Steps.shop this text "John Doe")
                 = Steps.Returned tt)).
  { intros text.
    destruct (verifyResponseContains_outcome Steps.shop this FormSubmissionTest.a_page text
                "John Doe" "John Doe" "John Doe" "John Doe"
                "<body>John Doe</body>" "John Doe" eq_refl eq_refl eq_refl eq_refl)
      as (Ho & He & _).
    split; [exact Ho | exact He]. }
  split; [exact (proj1 (H "John"))|]. split; [exact (proj1 (H "Jane"))|].
  exact (proj2 (H "") eq_refl).
Defined.

(** When the page cannot be closed, the browser is left open. *)
Lemma teardownBrowser_closes_in_order_witness :
  let this := FormSubmissionTest.setupBrowser FormSubmissionTest.new in
  Steps.trace (Steps.teardownBrowser Steps.gone this tt) = [Steps.did Steps.page_close]
  /\ Steps.trace (Steps.teardownBrowser Steps.shop this "")
     = [Steps.did Steps.page_close; Steps.did Steps.context_close;
        Steps.did Steps.browser_close].
Proof.
  intros this. split.
  - exact (proj2 (proj2 (proj2 (teardownBrowser_closes_in_order Steps.gone this tt))
                    FormSubmissionTest.a_page (Steps.thrown (Error "Target closed"))
                    eq_refl eq_refl)).
  - exact (proj1 (proj2 (teardownBrowser_closes_in_order Steps.shop this "")) eq_refl).
Defined.

(** Checking a topping: the wait, then the check; and with a browser that
    has gone away, the error of the wait. *)
Lemma check_steps_wait_then_check_witness :
  let this := FormSubmissionTest.setupBrowser FormSubmissionTest.new in
  (exists selector,
      Steps.trace (Steps.checkCheckbox Steps.shop this "Cheese" "topping" "")
      = [Steps.did (Steps.waitForSelector selector); Steps.did (Steps.check selector)])
  /\ (exists selector,
         Steps.outcome (Steps.selectRadioButton Steps.gone this "medium" "size" tt)
         = Steps.Raised (Steps.thrown (Error "Target closed"))
         /\ Steps.trace (Steps.selectRadioButton Steps.gone this "medium" "size" tt)
            = [Steps.did (Steps.waitForSelector selector)]).
Proof.
  intros this. split.
  - destruct (check_steps_wait_then_check Steps.shop this "Cheese" "topping" ""
                (Steps.checkCheckbox Steps.shop) (or_introl eq_refl))
      as (selector & _ & Ht).
    exists selector. exact Ht.
  - destruct (check_steps_wait_then_check Steps.gone this "medium" "size" tt
                (Steps.selectRadioButton Steps.gone) (or_intror eq_refl))
      as (selector & Ho & Ht).
    exists selector. split; [exact Ho | exact Ht].
Defined.

(* ================================================================= *)
(** ** [numberOfVowels] *)

Section VowelFacts.
Import Vowels.

Lemma split_chars_app (a b : string) :
  split_chars (a ++ b) = split_chars a ++ split_chars b.
Proof. induction a as [|c a IH]; simpl; [reflexivity | now rewrite IH]. Qed.

Lemma split_chars_length (word : string) : length (split_chars word) = String.length word.
Proof. induction word as [|c word IH]; simpl; [reflexivity | now rewrite IH]. Qed.

Lemma vowel_is_lower_letter (c : ascii) :
  includes vowels (String c "") = true -> JsString.is_lower_letter c = true.
Proof. destruct c as [[] [] [] [] [] [] [] []]; try discriminate; reflexivity. Qed.

(** X23.  [numberOfVowels] adds up over a concatenation, is at most the
    length of the word, and is 0 exactly when no character of the word is one
    of [a], [e], [i], [o], [u]. *)
Theorem numberOfVowels_counts (w1 w2 : string) :
  numberOfVowels (w1 ++ w2) = numberOfVowels w1 + numberOfVowels w2
  /\ numberOfVowels w1 <= String.length w1
  /\ (numberOfVowels w1 = 0
      <-> forall c, In c (split_chars w1) -> ~ In c vowels).
Proof.
  unfold numberOfVowels. split; [|split].
  - now rewrite split_chars_app, filter_app, length_app.
  - rewrite <- split_chars_length. apply filter_length_le.
  - induction (split_chars w1) as [|x l IH]; cbn [filter].
    + split; [intros _ c [] | reflexivity].
    + destruct (includes vowels x) eqn:E; cbn [length].
      * split; [discriminate|]. intros H. exfalso.
        apply existsb_exists in E. destruct E as (v & Hv & Heq).
        apply String.eqb_eq in Heq. subst v. apply (H x); [now left | exact Hv].
      * rewrite IH. split.
        -- intros H c [<-|Hc]; [|now apply H].
           intros Hin. assert (includes vowels x = true); [|congruence].
           apply existsb_exists. exists x. split; [exact Hin | apply String.eqb_refl].
        -- intros H c Hc. apply H. now right.
Qed.

(** X24.  Only lower-case letters count: a word without a lower-case
    ASCII letter, such as a word written in capitals, has no vowel for
    [numberOfVowels]. *)
Theorem numberOfVowels_without_lower_case (word : string) :
  (forall c, In c (list_ascii_of_string word) -> JsString.is_lower_letter c = false) ->
  numberOfVowels word = 0.
Proof.
  unfold numberOfVowels. induction word as [|c word IH]; intros H; [reflexivity|].
  cbn [split_chars filter].
  destruct (includes vowels (String c "")) eqn:E.
  - apply vowel_is_lower_letter in E. rewrite (H c) in E; [discriminate | now left].
  - apply IH. intros c' Hc'. apply H. now right.
Qed.

End VowelFacts.

Lemma numberOfVowels_without_lower_case_witness :
  Vowels.numberOfVowels "GAUGE" = 0 /\ Vowels.numberOfVowels "Gauge" = 3.
Proof.
  split; [|reflexivity].
  apply (numberOfVowels_without_lower_case "GAUGE").
  intros c Hc. simpl in Hc.
  repeat (destruct Hc as [<-|Hc]; [reflexivity|]). destruct Hc.
Defined.

(** The URL of the form taken from the environment, with a browser that
    accepts the calls and with one that has gone away. *)
Lemma env_url_is_resolved_witness :
  let this := FormSubmissionTest.setupBrowser FormSubmissionTest.new in
  let env := fun name => if (name =? "HTTPBIN_FORM_URL")%string
                         then Some "http://localhost:3000/forms/post" else None in
  let accepted := Steps.navigateToUrl Steps.shop this env "env:HTTPBIN_FORM_URL" "" in
  let refused := Steps.navigateToUrl Steps.gone this env "env:HTTPBIN_FORM_URL" tt in
  (Steps.outcome accepted = Steps.Returned tt
   /\ Steps.final accepted = ""
   /\ Steps.trace accepted
      = [Steps.did (Steps.goto "http://localhost:3000/forms/post");
         Steps.did (Steps.waitForLoadState "networkidle")])
  /\ (Steps.outcome refused = Steps.Raised (Steps.thrown (Error "Target closed"))
      /\ Steps.final refused = tt
      /\ Steps.trace refused
         = [Steps.did (Steps.goto "http://localhost:3000/forms/post")]).
Proof.
  intros this env accepted refused. split.
  - exact (env_url_is_resolved Steps.shop this FormSubmissionTest.a_page env
             "HTTPBIN_FORM_URL" "http://localhost:3000/forms/post" "" eq_refl eq_refl).
  - exact (env_url_is_resolved Steps.gone this FormSubmissionTest.a_page env
             "HTTPBIN_FORM_URL" "http://localhost:3000/forms/post" tt eq_refl eq_refl).
Defined.

(** A URL given as it is, to a browser that has gone away: [goto] throws
    and [waitForLoadState] is not called. *)
Lemma navigateToUrl_outcomes_witness :
  let this := FormSubmissionTest.setupBrowser FormSubmissionTest.new in
  let r := Steps.navigateToUrl Steps.gone this (fun _ => None) "http://localhost:3000/" tt in
  Steps.outcome r = Steps.Raised (Steps.thrown (Error "Target closed"))
  /\ Steps.trace r = [Steps.did (Steps.goto "http://localhost:3000/")].
Proof.
  intros this r.
  destruct (navigateToUrl_outcomes Steps.gone this (fun _ => None)
                                   "http://localhost:3000/" tt)
    as [(Ht & _)|(target & Hgo & _)].
  - discriminate Ht.
  - split; reflexivity.
Defined.

(* ================================================================= *)
(** ** [form] and [json] of the mirror, by content type *)

Section MirrorFacts.
Variable P : Platform.

Local Abbreviation unescape := (querystring_unescape P).



End MirrorFacts.



(* ================================================================= *)
(** ** Requests that match no route as they were sent *)

(** C6 as stated fails.  The path of the request, with the query cut off,
    is not what the router compares: it compares the pathname of the URL
    that [new URL] builds.  [GET //] matches no route and is not answered
    at all, [new URL] throws on it; [GET /x/../] matches no route as a
    string, and is answered by the route [/] once [new URL] has resolved the
    dots. *)
Lemma unmatched_as_sent_not_always_404 :
  (Http.unmatched_as_sent (router_routes Example.node) (Example.request "GET" "//" [] "")
   /\ server Example.node (Example.request "GET" "//" [] "")
      = Throw (TypeError "Invalid URL")
   /\ ~ Http.answered_404_when_unmatched Example.node (router_routes Example.node)
                                         (Example.request "GET" "//" [] ""))
  /\ (Http.unmatched_as_sent (router_routes Http.node_resolving)
                             (Example.request "GET" "/x/../" [] "")
      /\ server Http.node_resolving (Example.request "GET" "/x/../" [] "")
         = Normal [writeHead 200 [("Content-Type", "text/html")];
                   end_ (Text "Hello World!")]
      /\ ~ Http.answered_404_when_unmatched Http.node_resolving
                                            (router_routes Http.node_resolving)
                                            (Example.request "GET" "/x/../" [] "")).
Proof.
  assert (H1 : Http.unmatched_as_sent (router_routes Example.node)
                                      (Example.request "GET" "//" [] "")).
  { intros r Hin [_ Hpath].
    repeat (destruct Hin as [<-|Hin]; [discriminate Hpath|]). destruct Hin. }
  assert (H2 : Http.unmatched_as_sent (router_routes Http.node_resolving)
                                      (Example.request "GET" "/x/../" [] "")).
  { intros r Hin [_ Hpath].
    repeat (destruct Hin as [<-|Hin]; [discriminate Hpath|]). destruct Hin. }
  split.
  - split; [exact H1|]. split; [reflexivity|].
    intros H. specialize (H H1). discriminate H.
  - split; [exact H2|]. split; [reflexivity|].
    intros H. specialize (H H2). discriminate H.
Qed.
